(** * OscillatorDetector: a shallow embedding of [OscillatorDetector.hpp]

    The class keeps two anonymous structs, [m_params] and [m_internals],
    and exposes [detect] together with four accessors.  Fixed-width
    integers are embedded as [Z]: the [uint8_t] counters wrap modulo 256
    where the source increments them, [int64_t] positions and the [int]
    direction are only ever compared and stored, so they need no
    arithmetic of their own. *)

From Stdlib Require Import ZArith List Bool Lia.
Import ListNotations.
Open Scope Z_scope.

(** ** Numeric limits *)

Module Limits.

Definition INT64_MIN : Z := - 2 ^ 63.
Definition INT64_MAX : Z := 2 ^ 63 - 1.

(** Conversion of an integer to [uint8_t]: reduction modulo 2^8. *)
Definition to_uint8 (x : Z) : Z := x mod 256.

Definition is_uint8 (x : Z) : Prop := 0 <= x < 256.
Definition is_int64 (x : Z) : Prop := INT64_MIN <= x <= INT64_MAX.

End Limits.
Import Limits.

(** ** Data model *)

(** [m_params]: the two tuning parameters, both [uint8_t]. *)
Record Params : Type := mkParams {
  smootherThreshold : Z;
  sensitivity : Z
}.

(** [m_internals]: the private state, in the order of the source. *)
Record Internals : Type := mkInternals {
  extremaCounter : Z;          (* uint8_t *)
  lastDirection : Z;           (* int *)
  minFoundPos : Z;             (* int64_t *)
  maxFoundPos : Z;             (* int64_t *)
  minimumDebounceCounter : Z;  (* uint8_t *)
  maximumDebounceCounter : Z   (* uint8_t *)
}.

Record OscillatorDetector : Type := mkDetector {
  m_params : Params;
  m_internals : Internals
}.

(** Default member initialisers. *)
Definition default_params : Params :=
  {| smootherThreshold := 5; sensitivity := 5 |}.

Definition default_internals : Internals :=
  {| extremaCounter := 0;
     lastDirection := 0;
     minFoundPos := INT64_MAX;
     maxFoundPos := INT64_MIN;
     minimumDebounceCounter := 0;
     maximumDebounceCounter := 0 |}.

(** [OscillatorDetector() = default]. *)
Definition construct : OscillatorDetector :=
  {| m_params := default_params; m_internals := default_internals |}.

(** Field assignments on [m_internals]. *)
Definition set_extremaCounter (st : Internals) (v : Z) : Internals :=
  mkInternals v (lastDirection st) (minFoundPos st) (maxFoundPos st)
              (minimumDebounceCounter st) (maximumDebounceCounter st).

Definition set_lastDirection (st : Internals) (v : Z) : Internals :=
  mkInternals (extremaCounter st) v (minFoundPos st) (maxFoundPos st)
              (minimumDebounceCounter st) (maximumDebounceCounter st).

Definition set_minFoundPos (st : Internals) (v : Z) : Internals :=
  mkInternals (extremaCounter st) (lastDirection st) v (maxFoundPos st)
              (minimumDebounceCounter st) (maximumDebounceCounter st).

Definition set_maxFoundPos (st : Internals) (v : Z) : Internals :=
  mkInternals (extremaCounter st) (lastDirection st) (minFoundPos st) v
              (minimumDebounceCounter st) (maximumDebounceCounter st).

Definition set_minimumDebounceCounter (st : Internals) (v : Z) : Internals :=
  mkInternals (extremaCounter st) (lastDirection st) (minFoundPos st)
              (maxFoundPos st) v (maximumDebounceCounter st).

Definition set_maximumDebounceCounter (st : Internals) (v : Z) : Internals :=
  mkInternals (extremaCounter st) (lastDirection st) (minFoundPos st)
              (maxFoundPos st) (minimumDebounceCounter st) v.

(** Representable ranges of the stored fields. *)
Definition wf_params (par : Params) : Prop :=
  is_uint8 (smootherThreshold par) /\ is_uint8 (sensitivity par).

Definition wf_internals (st : Internals) : Prop :=
  is_uint8 (extremaCounter st) /\
  is_uint8 (minimumDebounceCounter st) /\
  is_uint8 (maximumDebounceCounter st).

(** ** The accessors *)

(** The parameter of both setters has type [uint8_t]; the argument of a
    call is converted to it, which is the [to_uint8] below.  The bodies
    are plain assignments. *)
Definition setSmootherThreshold (d : OscillatorDetector) (threshold : Z)
  : OscillatorDetector :=
  {| m_params := {| smootherThreshold := to_uint8 threshold;
                    sensitivity := sensitivity (m_params d) |};
     m_internals := m_internals d |}.

Definition setSensitivity (d : OscillatorDetector) (sens : Z)
  : OscillatorDetector :=
  {| m_params := {| smootherThreshold := smootherThreshold (m_params d);
                    sensitivity := to_uint8 sens |};
     m_internals := m_internals d |}.

Definition getSmootherThreshold (d : OscillatorDetector) : Z :=
  smootherThreshold (m_params d).

Definition getSensitivity (d : OscillatorDetector) : Z :=
  sensitivity (m_params d).

(** ** [detect] *)

(** The two candidate predicates computed at the top of [detect].  Here
    and below a source comparison [a > b] is written [b <? a], and
    [a >= b] is written [b <=? a]. *)
Definition maximumFound (st : Internals) (direction : Z) : bool :=
  (0 <? lastDirection st) && (direction <=? 0).

Definition minimumFound (st : Internals) (direction : Z) : bool :=
  (lastDirection st <? 0) && (0 <=? direction).

(** [m_internals.maximumDebounceCounter++]: the value read, and the state
    with the counter advanced (wrapping at 256). *)
Definition post_incr_maximum (st : Internals) : Z * Internals :=
  (maximumDebounceCounter st,
   set_maximumDebounceCounter st (to_uint8 (maximumDebounceCounter st + 1))).

Definition post_incr_minimum (st : Internals) : Z * Internals :=
  (minimumDebounceCounter st,
   set_minimumDebounceCounter st (to_uint8 (minimumDebounceCounter st + 1))).

(** Condition of the first [if] of the maximum block,
    [maxFoundPos <= position && maximumDebounceCounter++ == 0].
    [&&] short-circuits: the increment runs only when the left operand
    holds. *)
Definition maximum_first_cond (position : Z) (st : Internals)
  : bool * Internals :=
  if maxFoundPos st <=? position
  then let '(old, st') := post_incr_maximum st in (old =? 0, st')
  else (false, st).

Definition minimum_first_cond (position : Z) (st : Internals)
  : bool * Internals :=
  if position <=? minFoundPos st
  then let '(old, st') := post_incr_minimum st in (old =? 0, st')
  else (false, st).

(** Body of [if (maximumFound) { ... }], threading [m_internals] and the
    local [reset]. *)
Definition maximum_branch (par : Params) (position : Z)
                          (st : Internals) (reset : bool)
  : Internals * bool :=
  let '(c, st1) := maximum_first_cond position st in
  if c then
    let st2 := set_extremaCounter st1 (to_uint8 (extremaCounter st1 + 1)) in
    let st3 := set_maxFoundPos st2 position in
    (set_minimumDebounceCounter st3 0, reset)
  else if maxFoundPos st1 <=? position then
    (set_maxFoundPos st1 position, reset)
  else if smootherThreshold par <? maximumDebounceCounter st1 then
    (st1, true)
  else
    (st1, reset).

(** Body of [if (minimumFound) { ... }]. *)
Definition minimum_branch (par : Params) (position : Z)
                          (st : Internals) (reset : bool)
  : Internals * bool :=
  let '(c, st1) := minimum_first_cond position st in
  if c then
    let st2 := set_extremaCounter st1 (to_uint8 (extremaCounter st1 + 1)) in
    let st3 := set_minFoundPos st2 position in
    (set_maximumDebounceCounter st3 0, reset)
  else if position <=? minFoundPos st1 then
    (set_minFoundPos st1 position, reset)
  else if smootherThreshold par <? minimumDebounceCounter st1 then
    (st1, true)
  else
    (st1, reset).

(** What one call of [detect] does: the object afterwards, the final value
    of the local [reset], and the returned boolean. *)
Record Outcome : Type := mkOutcome {
  after : OscillatorDetector;
  reset_flag : bool;
  verdict : bool
}.

Definition detect_full (d : OscillatorDetector) (position direction : Z)
  : Outcome :=
  let par := m_params d in
  let st0 := m_internals d in
  let reset0 := false in
  let maxF := maximumFound st0 direction in
  let minF := minimumFound st0 direction in
  let '(st1, reset1) :=
    if maxF then maximum_branch par position st0 reset0 else (st0, reset0) in
  let '(st2, reset2) :=
    if minF then minimum_branch par position st1 reset1 else (st1, reset1) in
  let st3 := if reset2 then default_internals else st2 in
  let st4 := set_lastDirection st3 direction in
  {| after := {| m_params := par; m_internals := st4 |};
     reset_flag := reset2;
     verdict := sensitivity par <? extremaCounter st4 |}.

(** [bool detect(int64_t position, int direction)]. *)
Definition detect (d : OscillatorDetector) (position direction : Z)
  : OscillatorDetector * bool :=
  let o := detect_full d position direction in (after o, verdict o).

(** ** Sample streams *)

(** A sample is a [(position, direction)] pair. *)
Definition Sample : Type := (Z * Z)%type.

(** The detector after a stream of calls. *)
Fixpoint final (d : OscillatorDetector) (xs : list Sample)
  : OscillatorDetector :=
  match xs with
  | [] => d
  | (p, dir) :: xs' => final (fst (detect d p dir)) xs'
  end.

(** The per-call return values of a stream of calls. *)
Fixpoint verdicts (d : OscillatorDetector) (xs : list Sample) : list bool :=
  match xs with
  | [] => []
  | (p, dir) :: xs' => snd (detect d p dir) :: verdicts (fst (detect d p dir)) xs'
  end.

(** No call of the stream sets [reset]. *)
Fixpoint no_reset (d : OscillatorDetector) (xs : list Sample) : bool :=
  match xs with
  | [] => true
  | (p, dir) :: xs' =>
      negb (reset_flag (detect_full d p dir))
      && no_reset (fst (detect d p dir)) xs'
  end.

(** No call of the stream is a maximum (resp. minimum) candidate. *)
Fixpoint no_maximum_candidate (d : OscillatorDetector) (xs : list Sample)
  : bool :=
  match xs with
  | [] => true
  | (p, dir) :: xs' =>
      negb (maximumFound (m_internals d) dir)
      && no_maximum_candidate (fst (detect d p dir)) xs'
  end.

Fixpoint no_minimum_candidate (d : OscillatorDetector) (xs : list Sample)
  : bool :=
  match xs with
  | [] => true
  | (p, dir) :: xs' =>
      negb (minimumFound (m_internals d) dir)
      && no_minimum_candidate (fst (detect d p dir)) xs'
  end.

(** A detector built with the given parameter settings and not yet used. *)
Definition configured (sens threshold : Z) : OscillatorDetector :=
  setSmootherThreshold (setSensitivity construct sens) threshold.

(** Samples with the same direction throughout. *)
Definition constant_direction (dir : Z) (positions : list Z) : list Sample :=
  map (fun p => (p, dir)) positions.

(** ** [detect] as a step relation *)

(** The control flow of [detect] once more, as the relation between the
    state before and the possible states after: one rule for each way
    through the code.  Nothing here says that a call has one outcome only;
    that is proved further down. *)











(** ** State predicates *)

(** The maximum side still holds its sentinel and a zero debounce counter;
    likewise for the minimum side. *)
Definition untouched_maximum (st : Internals) : Prop :=
  maxFoundPos st = INT64_MIN /\ maximumDebounceCounter st = 0.

Definition untouched_minimum (st : Internals) : Prop :=
  minFoundPos st = INT64_MAX /\ minimumDebounceCounter st = 0.

(** The detector has just been constructed (whatever its parameters), or
    is the result of a call of [detect] that reset it. *)
Definition freshly_initialised (d : OscillatorDetector) : Prop :=
  m_internals d = default_internals \/
  exists d0 position direction,
    reset_flag (detect_full d0 position direction) = true /\
    d = fst (detect d0 position direction).

(** Two states that differ at most in [lastDirection], and there only
    within the same sign. *)
Definition same_up_to_direction (st1 st2 : Internals) : Prop :=
  st2 = set_lastDirection st1 (lastDirection st2) /\
  Z.sgn (lastDirection st1) = Z.sgn (lastDirection st2).

(** A stream with every direction clamped to -1, 0 or +1. *)
Definition clamp_directions (xs : list Sample) : list Sample :=
  map (fun x => (fst x, Z.sgn (snd x))) xs.

(** ** Concrete runs *)

(** A rise to a peak, a fall to a trough, a lower peak. *)
Definition lower_peak_prefix : list Sample :=
  [(1, 1); (2, 1); (1, -1); (0, -1); (1, 1)].

(** A trough, six rising plateaus, a dip, then a turn below the last
    plateau. *)
Definition staircase_prefix : list Sample :=
  [(0, -1); (-1, -1); (0, 1);
   (1, 1); (1, 0); (2, 1); (2, 0); (3, 1); (3, 0);
   (4, 1); (4, 0); (5, 1); (5, 0); (6, 1); (6, 0);
   (5, -1); (6, 1)].

(** The detector reached by [lower_peak_prefix] with default parameters,
    and with a zero smoother threshold. *)
Definition lower_peak_detector : OscillatorDetector :=
  final construct lower_peak_prefix.

Definition lower_peak_detector0 : OscillatorDetector :=
  final (setSmootherThreshold construct 0) lower_peak_prefix.

(** The detector reached by [staircase_prefix]. *)
Definition staircase_detector : OscillatorDetector :=
  final construct staircase_prefix.

(** Detectors that have seen one rising, resp. one falling, sample. *)
Definition rising_detector : OscillatorDetector := final construct [(1, 1)].
Definition falling_detector : OscillatorDetector := final construct [(-1, -1)].

(** ** When a call counts and when it resets *)

(** The call is a candidate at or beyond the reference position of its side
    and the debounce counter of that side reads zero. *)
Definition confirms (st : Internals) (position direction : Z) : bool :=
  (maximumFound st direction && (maxFoundPos st <=? position)
   && (maximumDebounceCounter st =? 0))
  || (minimumFound st direction && (position <=? minFoundPos st)
      && (minimumDebounceCounter st =? 0)).

(** The call is a candidate strictly short of the reference position of
    its side while the debounce counter of that side is above the
    threshold. *)
Definition resets (par : Params) (st : Internals) (position direction : Z)
  : bool :=
  (maximumFound st direction && (position <? maxFoundPos st)
   && (smootherThreshold par <? maximumDebounceCounter st))
  || (minimumFound st direction && (minFoundPos st <? position)
      && (smootherThreshold par <? minimumDebounceCounter st)).

(** ** Oscillating streams *)

(** A leg of an oscillation: the position of the sample at which the
    direction turns, and the positions of the samples that follow in the
    new direction. *)
Definition Leg : Type := (Z * list Z)%type.

Definition leg_samples (dir : Z) (l : Leg) : list Sample :=
  (fst l, dir) :: constant_direction dir (snd l).

(** Legs of alternating direction.  [up] says that the signal was rising,
    so that the first leg starts at a peak and falls. *)
Fixpoint swing (up : bool) (legs : list Leg) : list Sample :=
  match legs with
  | [] => []
  | l :: ls => leg_samples (if up then -1 else 1) l ++ swing (negb up) ls
  end.

(** Every peak is at or above the previous one (or [hi]), every trough at
    or below the previous one (or [lo]). *)
Fixpoint growing (up : bool) (hi lo : Z) (legs : list Leg) : Prop :=
  match legs with
  | [] => True
  | l :: ls =>
      if up then hi <= fst l /\ growing false (fst l) lo ls
      else fst l <= lo /\ growing true hi (fst l) ls
  end.

(** The state expects a turn of the given side and has its debounce
    counter at zero. *)
Definition ready (up : bool) (st : Internals) : Prop :=
  if up then 0 < lastDirection st /\ maximumDebounceCounter st = 0
  else lastDirection st < 0 /\ minimumDebounceCounter st = 0.

(** The return values expected over [legs] when every turn is counted:
    during the k-th leg the counter stands at [ec + k] (modulo 256). *)
Fixpoint swing_verdicts (sens ec : Z) (legs : list Leg) : list bool :=
  match legs with
  | [] => []
  | l :: ls =>
      repeat (sens <? to_uint8 (ec + 1)) (S (length (snd l)))
      ++ swing_verdicts sens (ec + 1) ls
  end.

(** Rising plateaus: [n] times a rising sample followed by a stationary
    one, at the positions [p+1], [p+2], ... *)
Fixpoint staircase (p : Z) (n : nat) : list Sample :=
  match n with
  | O => []
  | S k => (p + 1, 1) :: (p + 1, 0) :: staircase (p + 1) k
  end.

(** ** The test harness of [test.cpp] *)

(** [std::clamp(v, lo, hi)]. *)
Definition clamp (v lo hi : Z) : Z :=
  if v <? lo then lo else if hi <? v then hi else v.

(** The [int64_t] value of an expression whose mathematical result is
    [x]: two's-complement wrap-around.  The language leaves the overflow
    of a signed subtraction undefined; wrapping is what the compiled tests
    do. *)
Definition wrap_int64 (x : Z) : Z := (x - INT64_MIN) mod 2 ^ 64 + INT64_MIN.

(** [static_cast<int>(std::clamp(position - prev, int64_t{-1}, int64_t{1}))].
    [position - prev] is a subtraction of two [int64_t]; the cast to [int]
    of a value between -1 and 1 changes nothing. *)
Definition direction_of (position prev : Z) : Z :=
  clamp (wrap_int64 (position - prev)) (-1) 1.

(** The samples the loop of a test passes to [detect]. *)
Fixpoint harness_samples (prev : Z) (positions : list Z) : list Sample :=
  match positions with
  | [] => []
  | position :: rest =>
      (position, direction_of position prev) :: harness_samples position rest
  end.

(** The loop shared by all tests:
    [direction = ...; detected |= detector.detect(position, direction);
     prev = position;]. *)
Fixpoint harness_loop (detector : OscillatorDetector) (prev : Z)
                      (detected : bool) (positions : list Z)
  : OscillatorDetector * bool :=
  match positions with
  | [] => (detector, detected)
  | position :: rest =>
      let direction := direction_of position prev in
      let r := detect detector position direction in
      harness_loop (fst r) position (detected || snd r) rest
  end.

(** Every position is strictly above (resp. below) the one before it,
    starting after [prev]. *)
Fixpoint rising_from (prev : Z) (positions : list Z) : Prop :=
  match positions with
  | [] => True
  | p :: rest => prev < p /\ rising_from p rest
  end.

Fixpoint falling_from (prev : Z) (positions : list Z) : Prop :=
  match positions with
  | [] => True
  | p :: rest => p < prev /\ falling_from p rest
  end.

(** No subtraction [position - prev] of the loop overflows. *)
Fixpoint steps_in_range (prev : Z) (positions : list Z) : Prop :=
  match positions with
  | [] => True
  | p :: rest => is_int64 (p - prev) /\ steps_in_range p rest
  end.





(** ** Basic facts *)

Lemma to_uint8_range x : is_uint8 (to_uint8 x).
Proof. unfold is_uint8, to_uint8. apply Z.mod_pos_bound. lia. Qed.

Lemma to_uint8_id x : is_uint8 x -> to_uint8 x = x.
Proof. unfold is_uint8, to_uint8. intros H. apply Z.mod_small. exact H. Qed.

Lemma configured_wf sens threshold :
  wf_params (m_params (configured sens threshold)) /\
  wf_internals (m_internals (configured sens threshold)).
Proof.
  split; [split; apply to_uint8_range|].
  unfold wf_internals, is_uint8. cbn. lia.
Qed.

Example lower_peak_state :
  m_internals (final (configured 5 0) lower_peak_prefix)
  = mkInternals 2 1 1 1 1 0.
Proof. reflexivity. Qed.

Example staircase_state :
  m_internals (final construct staircase_prefix)
  = mkInternals 2 1 0 6 0 6.
Proof. reflexivity. Qed.

(** Case analysis over every comparison met while running [detect]. *)
Ltac split_test :=
  match goal with
  | |- context [?a <=? ?b] => destruct (Z.leb_spec a b)
  | |- context [?a <? ?b] => destruct (Z.ltb_spec a b)
  | |- context [?a =? ?b] => destruct (Z.eqb_spec a b)
  | H : context [?a <=? ?b] |- _ => destruct (Z.leb_spec a b)
  | H : context [?a <? ?b] |- _ => destruct (Z.ltb_spec a b)
  | H : context [?a =? ?b] |- _ => destruct (Z.eqb_spec a b)
  end.

Ltac unfold_detect :=
  unfold detect, detect_full, maximum_branch, minimum_branch,
    maximum_first_cond, minimum_first_cond, post_incr_maximum,
    post_incr_minimum, maximumFound, minimumFound,
    set_extremaCounter, set_lastDirection, set_minFoundPos, set_maxFoundPos,
    set_minimumDebounceCounter, set_maximumDebounceCounter in *.

Ltac run_detect :=
  unfold_detect; cbn in *; repeat (split_test; cbn in *; try lia).

(** The two candidate predicates exclude each other. *)
Lemma candidates_exclusive st direction :
  maximumFound st direction = true -> minimumFound st direction = false.
Proof. run_detect; intros; (discriminate || reflexivity || lia). Qed.

(** [detect] never writes [m_params]. *)
Lemma detect_params d position direction :
  m_params (after (detect_full d position direction)) = m_params d.
Proof.
  unfold detect_full.
  destruct (if maximumFound _ _ then _ else _) as [st1 r1].
  destruct (if minimumFound _ _ then _ else _) as [st2 r2].
  reflexivity.
Qed.

(** The counters stay representable. *)
Lemma detect_wf d position direction :
  wf_internals (m_internals d) ->
  wf_internals (m_internals (after (detect_full d position direction))).
Proof.
  destruct d as [par [ec ld mn mx mnc mxc]].
  unfold wf_internals, is_uint8. cbn. intros (Hec & Hmn & Hmx).
  pose proof (to_uint8_range (ec + 1)) as R1.
  pose proof (to_uint8_range (mnc + 1)) as R2.
  pose proof (to_uint8_range (mxc + 1)) as R3.
  unfold is_uint8 in *.
  run_detect; lia.
Qed.

(** ** Single calls *)

Section SingleCall.

Variable d : OscillatorDetector.
Variables position direction : Z.

(** A maximum candidate never enters the minimum block, so the whole call
    is the maximum block followed by the tail of [detect]. *)
Lemma detect_full_maximum :
  maximumFound (m_internals d) direction = true ->
  let '(st1, r1) := maximum_branch (m_params d) position (m_internals d) false in
  detect_full d position direction
  = {| after := {| m_params := m_params d;
                     m_internals :=
                       set_lastDirection
                         (if r1 then default_internals else st1) direction |};
         reset_flag := r1;
         verdict :=
           sensitivity (m_params d)
           <? extremaCounter
                (set_lastDirection
                   (if r1 then default_internals else st1) direction) |}.
Proof.
  intros Hmax. pose proof (candidates_exclusive _ _ Hmax) as Hmin.
  unfold detect_full. rewrite Hmax, Hmin.
  destruct (maximum_branch _ _ _ _) as [st1 r1]. reflexivity.
Qed.

Lemma detect_full_minimum :
  minimumFound (m_internals d) direction = true ->
  let '(st1, r1) := minimum_branch (m_params d) position (m_internals d) false in
  detect_full d position direction
  = {| after := {| m_params := m_params d;
                     m_internals :=
                       set_lastDirection
                         (if r1 then default_internals else st1) direction |};
         reset_flag := r1;
         verdict :=
           sensitivity (m_params d)
           <? extremaCounter
                (set_lastDirection
                   (if r1 then default_internals else st1) direction) |}.
Proof.
  intros Hmin.
  assert (Hmax : maximumFound (m_internals d) direction = false).
  { destruct (maximumFound (m_internals d) direction) eqn:E; [|reflexivity].
    apply candidates_exclusive in E. congruence. }
  unfold detect_full. rewrite Hmax, Hmin.
  destruct (minimum_branch _ _ _ _) as [st1 r1]. reflexivity.
Qed.

(** A call that is no candidate only records the direction. *)
Lemma detect_full_no_candidate :
  maximumFound (m_internals d) direction = false ->
  minimumFound (m_internals d) direction = false ->
  detect_full d position direction
  = {| after := {| m_params := m_params d;
                     m_internals := set_lastDirection (m_internals d) direction |};
         reset_flag := false;
         verdict := sensitivity (m_params d) <? extremaCounter (m_internals d) |}.
Proof.
  intros Hmax Hmin. unfold detect_full.
  rewrite Hmax, Hmin. reflexivity.
Qed.

End SingleCall.

(** ** The verdict *)

(** C4. For every detector state and every sample, [detect] returns true
    exactly when the value of [extremaCounter] stored after the call is
    strictly greater than [sensitivity] (which the call does not change). *)
Theorem detect_verdict_iff (d : OscillatorDetector) (position direction : Z) :
  let d' := fst (detect d position direction) in
  (snd (detect d position direction) = true
   <-> sensitivity (m_params d) < extremaCounter (m_internals d'))
  /\ sensitivity (m_params d') = sensitivity (m_params d).
Proof.
  cbn zeta. unfold detect. cbn [fst snd]. split.
  - unfold detect_full.
    destruct (if maximumFound _ _ then _ else _) as [st1 r1].
    destruct (if minimumFound _ _ then _ else _) as [st2 r2].
    cbn [verdict after m_internals]. apply Z.ltb_lt.
  - now rewrite detect_params.
Qed.

(** ** Reset *)

(** The part of the reset state the sentinel argument needs. *)
Lemma detect_reset_state_aux d position direction :
  reset_flag (detect_full d position direction) = true ->
  let st' := m_internals (fst (detect d position direction)) in
  minFoundPos st' = INT64_MAX /\ maxFoundPos st' = INT64_MIN /\
  minimumDebounceCounter st' = 0 /\ maximumDebounceCounter st' = 0.
Proof.
  unfold detect. cbn [fst]. unfold detect_full.
  destruct (if maximumFound _ _ then _ else _) as [st1 r1].
  destruct (if minimumFound _ _ then _ else _) as [st2 r2].
  cbn [reset_flag after m_internals]. intros ->. cbn. tauto.
Qed.

(** C5. A call of [detect] that sets [reset] leaves [m_internals] at its
    default member initialisers, except [lastDirection], which holds the
    [direction] argument of that call; [m_params] (smootherThreshold and
    sensitivity) is unchanged. *)
Theorem detect_reset_state (d : OscillatorDetector) (position direction : Z) :
  reset_flag (detect_full d position direction) = true ->
  let st' := m_internals (fst (detect d position direction)) in
  extremaCounter st' = 0 /\
  lastDirection st' = direction /\
  minFoundPos st' = INT64_MAX /\
  maxFoundPos st' = INT64_MIN /\
  minimumDebounceCounter st' = 0 /\
  maximumDebounceCounter st' = 0 /\
  m_params (fst (detect d position direction)) = m_params d.
Proof.
  unfold detect. cbn [fst]. rewrite detect_params. unfold detect_full.
  destruct (if maximumFound _ _ then _ else _) as [st1 r1].
  destruct (if minimumFound _ _ then _ else _) as [st2 r2].
  cbn [reset_flag after m_internals]. intros ->. cbn. tauto.
Qed.

Lemma detect_reset_state_witness :
  reset_flag (detect_full staircase_detector 5 (-1)) = true /\
  let st' := m_internals (fst (detect staircase_detector 5 (-1))) in
  extremaCounter st' = 0 /\
  lastDirection st' = -1 /\
  minFoundPos st' = INT64_MAX /\
  maxFoundPos st' = INT64_MIN /\
  minimumDebounceCounter st' = 0 /\
  maximumDebounceCounter st' = 0 /\
  m_params (fst (detect staircase_detector 5 (-1))) = m_params staircase_detector.
Proof.
  assert (H : reset_flag (detect_full staircase_detector 5 (-1)) = true)
    by (vm_compute; reflexivity).
  split; [exact H|].
  exact (detect_reset_state staircase_detector 5 (-1) H).
Defined.

(** ** Accessors *)

(** C8. For every detector and every [uint8_t] value [s],
    [setSensitivity(s)] followed by [getSensitivity()] yields [s]; for an
    arbitrary integer argument it yields the argument reduced to the 8-bit
    storage width.  The setter leaves the six fields of [m_internals] (and
    [smootherThreshold]) unchanged. *)
Theorem setSensitivity_getSensitivity (d : OscillatorDetector) (s : Z) :
  is_uint8 s ->
  getSensitivity (setSensitivity d s) = s /\
  (forall v, getSensitivity (setSensitivity d v) = v mod 2 ^ 8) /\
  m_internals (setSensitivity d s) = m_internals d /\
  getSmootherThreshold (setSensitivity d s) = getSmootherThreshold d.
Proof.
  intros Hs. unfold getSensitivity, getSmootherThreshold, setSensitivity.
  cbn [m_params m_internals sensitivity smootherThreshold].
  repeat split; auto using to_uint8_id.
Qed.

Lemma setSensitivity_getSensitivity_witness :
  is_uint8 200 /\
  getSensitivity (setSensitivity staircase_detector 200) = 200 /\
  m_internals (setSensitivity staircase_detector 200)
  = m_internals staircase_detector.
Proof.
  assert (H : is_uint8 200) by (unfold is_uint8; lia).
  destruct (setSensitivity_getSensitivity staircase_detector 200 H)
    as (G & _ & I & _).
  exact (conj H (conj G I)).
Defined.

(** ** Candidates below the reference extremum *)

(** In the non-advancing case the first condition fails on its left
    operand, so the post-increment is never evaluated. *)
Lemma maximum_branch_below par position st reset :
  position < maxFoundPos st ->
  maximum_branch par position st reset
  = (st, (smootherThreshold par <? maximumDebounceCounter st) || reset).
Proof.
  intros H. unfold maximum_branch, maximum_first_cond.
  assert (E : (maxFoundPos st <=? position) = false) by (apply Z.leb_gt; lia).
  rewrite E. cbn iota. rewrite E.
  destruct (_ <? _); reflexivity.
Qed.

Lemma minimum_branch_above par position st reset :
  minFoundPos st < position ->
  minimum_branch par position st reset
  = (st, (smootherThreshold par <? minimumDebounceCounter st) || reset).
Proof.
  intros H. unfold minimum_branch, minimum_first_cond.
  assert (E : (position <=? minFoundPos st) = false) by (apply Z.leb_gt; lia).
  rewrite E. cbn iota. rewrite E.
  destruct (_ <? _); reflexivity.
Qed.

(** C1 (as stated) fails: after [lower_peak_prefix] the call
    [detect(0, -1)] is a maximum candidate below [maxFoundPos = 1] with
    [maximumDebounceCounter = 0 <= smootherThreshold = 5], and the counter
    is still 0 afterwards, not 1. *)
Lemma debounce_not_incremented_below_reference :
  maximumFound (m_internals lower_peak_detector) (-1) = true /\
  0 < maxFoundPos (m_internals lower_peak_detector) /\
  maximumDebounceCounter (m_internals lower_peak_detector)
  <= smootherThreshold (m_params lower_peak_detector) /\
  maximumDebounceCounter (m_internals (fst (detect lower_peak_detector 0 (-1))))
  <> to_uint8 (maximumDebounceCounter (m_internals lower_peak_detector) + 1).
Proof. vm_compute. repeat split; discriminate. Qed.

(** C1 (amended). A maximum candidate whose position is strictly below
    [maxFoundPos] and whose [maximumDebounceCounter] is at most
    [smootherThreshold] changes nothing but [lastDirection]: the debounce
    counter is not incremented, [extremaCounter] and [maxFoundPos] stay,
    and no reset is scheduled.  Symmetrically for a minimum candidate
    strictly above [minFoundPos] with [minimumDebounceCounter]. *)
Theorem nonadvancing_candidate_in_budget
        (d : OscillatorDetector) (position direction : Z) :
  (maximumFound (m_internals d) direction = true /\
   position < maxFoundPos (m_internals d) /\
   maximumDebounceCounter (m_internals d) <= smootherThreshold (m_params d))
  \/
  (minimumFound (m_internals d) direction = true /\
   minFoundPos (m_internals d) < position /\
   minimumDebounceCounter (m_internals d) <= smootherThreshold (m_params d)) ->
  m_internals (fst (detect d position direction))
  = set_lastDirection (m_internals d) direction
  /\ reset_flag (detect_full d position direction) = false.
Proof.
  unfold detect. cbn [fst].
  intros [(Hc & Hp & Hb) | (Hc & Hp & Hb)].
  - pose proof (detect_full_maximum d position direction Hc) as E.
    rewrite maximum_branch_below in E by exact Hp.
    destruct (Z.ltb_spec (smootherThreshold (m_params d))
                         (maximumDebounceCounter (m_internals d))); [lia|].
    cbn in E. rewrite E. split; reflexivity.
  - pose proof (detect_full_minimum d position direction Hc) as E.
    rewrite minimum_branch_above in E by exact Hp.
    destruct (Z.ltb_spec (smootherThreshold (m_params d))
                         (minimumDebounceCounter (m_internals d))); [lia|].
    cbn in E. rewrite E. split; reflexivity.
Qed.

Lemma nonadvancing_candidate_in_budget_witness :
  m_internals (fst (detect lower_peak_detector 0 (-1)))
  = set_lastDirection (m_internals lower_peak_detector) (-1)
  /\ reset_flag (detect_full lower_peak_detector 0 (-1)) = false.
Proof.
  apply (nonadvancing_candidate_in_budget lower_peak_detector 0 (-1)).
  left. vm_compute. repeat split; discriminate.
Defined.

(** C3 (as stated) fails: with [smootherThreshold = 0], after
    [lower_peak_prefix] the call [detect(0, -1)] is a maximum candidate
    strictly below [maxFoundPos = 1], yet no reset happens, because
    [maximumDebounceCounter] is 0 and the test is a strict [>]. *)
Lemma zero_threshold_no_reset_on_zero_counter :
  smootherThreshold (m_params lower_peak_detector0) = 0 /\
  maximumFound (m_internals lower_peak_detector0) (-1) = true /\
  0 < maxFoundPos (m_internals lower_peak_detector0) /\
  reset_flag (detect_full lower_peak_detector0 0 (-1)) = false /\
  extremaCounter (m_internals (fst (detect lower_peak_detector0 0 (-1)))) = 2.
Proof. vm_compute. repeat split; discriminate. Qed.

(** C3 (amended). With [smootherThreshold = 0], a maximum candidate
    strictly below [maxFoundPos] triggers a reset on that call exactly when
    [maximumDebounceCounter] is greater than zero, and a minimum candidate
    strictly above [minFoundPos] exactly when [minimumDebounceCounter] is
    greater than zero. *)
Theorem zero_threshold_reset_iff
        (d : OscillatorDetector) (position direction : Z) :
  smootherThreshold (m_params d) = 0 ->
  (maximumFound (m_internals d) direction = true ->
   position < maxFoundPos (m_internals d) ->
   (reset_flag (detect_full d position direction) = true
    <-> 0 < maximumDebounceCounter (m_internals d)))
  /\
  (minimumFound (m_internals d) direction = true ->
   minFoundPos (m_internals d) < position ->
   (reset_flag (detect_full d position direction) = true
    <-> 0 < minimumDebounceCounter (m_internals d))).
Proof.
  intros Hz. split; intros Hc Hp.
  - pose proof (detect_full_maximum d position direction Hc) as E.
    rewrite maximum_branch_below in E by exact Hp.
    rewrite E, Hz. cbn [reset_flag]. rewrite orb_false_r. apply Z.ltb_lt.
  - pose proof (detect_full_minimum d position direction Hc) as E.
    rewrite minimum_branch_above in E by exact Hp.
    rewrite E, Hz. cbn [reset_flag]. rewrite orb_false_r. apply Z.ltb_lt.
Qed.

(** A zero-threshold detector that has confirmed one maximum at 5. *)
Lemma zero_threshold_reset_iff_witness :
  reset_flag
    (detect_full (final (setSmootherThreshold construct 0)
                        [(5, 1); (5, 0); (6, 1)]) 3 0) = true
  <-> 0 < maximumDebounceCounter
            (m_internals (final (setSmootherThreshold construct 0)
                                [(5, 1); (5, 0); (6, 1)])).
Proof.
  refine (proj1 (zero_threshold_reset_iff
                   (final (setSmootherThreshold construct 0)
                          [(5, 1); (5, 0); (6, 1)]) 3 0 _) _ _).
  - reflexivity.
  - reflexivity.
  - vm_compute. reflexivity.
Defined.

(** ** Directions outside -1, 0, +1 *)

(** [detect] looks at [direction] only through its sign, and stores it. *)
Lemma candidates_sign st direction :
  maximumFound st direction = maximumFound st (Z.sgn direction) /\
  minimumFound st direction = minimumFound st (Z.sgn direction).
Proof. destruct direction; split; reflexivity. Qed.

Lemma detect_full_sign d position direction :
  let o := detect_full d position direction in
  let o' := detect_full d position (Z.sgn direction) in
  verdict o = verdict o' /\
  reset_flag o = reset_flag o' /\
  m_params (after o) = m_params (after o') /\
  m_internals (after o) = set_lastDirection (m_internals (after o')) direction.
Proof.
  cbn zeta. unfold detect_full.
  destruct (candidates_sign (m_internals d) direction) as [-> ->].
  destruct (if maximumFound _ _ then _ else _) as [st1 r1].
  destruct (if minimumFound _ _ then _ else _) as [st2 r2].
  cbn. repeat split.
Qed.

(** Neither block reads [lastDirection]; both carry it along. *)
Lemma maximum_branch_frame par position st reset l :
  maximum_branch par position (set_lastDirection st l) reset
  = (set_lastDirection (fst (maximum_branch par position st reset)) l,
     snd (maximum_branch par position st reset)).
Proof.
  destruct st as [ec ld mn mx mnc mxc].
  unfold maximum_branch, maximum_first_cond, post_incr_maximum,
    set_lastDirection.
  cbn. repeat (split_test; cbn; try lia); reflexivity.
Qed.

Lemma minimum_branch_frame par position st reset l :
  minimum_branch par position (set_lastDirection st l) reset
  = (set_lastDirection (fst (minimum_branch par position st reset)) l,
     snd (minimum_branch par position st reset)).
Proof.
  destruct st as [ec ld mn mx mnc mxc].
  unfold minimum_branch, minimum_first_cond, post_incr_minimum,
    set_lastDirection.
  cbn. repeat (split_test; cbn; try lia); reflexivity.
Qed.

Lemma candidates_up_to_direction st l dir1 dir2 :
  Z.sgn (lastDirection st) = Z.sgn l ->
  Z.sgn dir1 = Z.sgn dir2 ->
  maximumFound (set_lastDirection st l) dir2 = maximumFound st dir1 /\
  minimumFound (set_lastDirection st l) dir2 = minimumFound st dir1.
Proof.
  unfold maximumFound, minimumFound. cbn [set_lastDirection lastDirection].
  destruct (lastDirection st), l, dir1, dir2; intros; try discriminate;
    split; reflexivity.
Qed.

(** What a call does depends on [lastDirection] and [direction] through
    their signs only. *)
Lemma detect_full_up_to_direction par st1 st2 position dir1 dir2 :
  same_up_to_direction st1 st2 ->
  Z.sgn dir1 = Z.sgn dir2 ->
  let o1 := detect_full (mkDetector par st1) position dir1 in
  let o2 := detect_full (mkDetector par st2) position dir2 in
  verdict o1 = verdict o2 /\
  reset_flag o1 = reset_flag o2 /\
  m_params (after o1) = m_params (after o2) /\
  same_up_to_direction (m_internals (after o1)) (m_internals (after o2)).
Proof.
  intros [E Hs] Hd. cbn zeta. rewrite E.
  destruct (candidates_up_to_direction st1 (lastDirection st2) dir1 dir2 Hs Hd)
    as [Emax Emin].
  unfold detect_full. cbn [m_params m_internals]. rewrite Emax, Emin.
  assert (K : forall (b : bool) (f : Internals -> bool -> Internals * bool)
                     (s : Internals) (r : bool) (l : Z),
             f (set_lastDirection s l) r
             = (set_lastDirection (fst (f s r)) l, snd (f s r)) ->
             (if b then f (set_lastDirection s l) r
              else (set_lastDirection s l, r))
             = (set_lastDirection (fst (if b then f s r else (s, r))) l,
                snd (if b then f s r else (s, r)))).
  { intros [] f s r l H; [exact H | reflexivity]. }
  rewrite (K (maximumFound st1 dir1) (maximum_branch par position))
    by apply maximum_branch_frame.
  destruct (if maximumFound st1 dir1 then _ else _) as [sa ra].
  cbn [fst snd].
  rewrite (K (minimumFound st1 dir1) (minimum_branch par position))
    by apply minimum_branch_frame.
  destruct (if minimumFound st1 dir1 then _ else _) as [sb rb].
  cbn [fst snd after reset_flag verdict m_params m_internals].
  unfold same_up_to_direction.
  destruct rb; cbn [set_lastDirection lastDirection extremaCounter];
    repeat split; congruence.
Qed.

Lemma verdicts_clamped xs : forall par st1 st2,
  same_up_to_direction st1 st2 ->
  verdicts (mkDetector par st1) xs
  = verdicts (mkDetector par st2) (clamp_directions xs).
Proof.
  induction xs as [|[p dir] xs IH]; intros par st1 st2 R; [reflexivity|].
  cbn [clamp_directions map verdicts fst snd]. unfold detect. cbn [fst snd].
  assert (Hd : Z.sgn dir = Z.sgn (Z.sgn dir)) by (destruct dir; reflexivity).
  destruct (detect_full_up_to_direction par st1 st2 p dir (Z.sgn dir) R Hd)
    as (V & _ & P & R').
  cbn zeta in *. rewrite V. f_equal.
  destruct (after (detect_full (mkDetector par st1) p dir)) as [par1 st1'].
  destruct (after (detect_full (mkDetector par st2) p (Z.sgn dir)))
    as [par2 st2'].
  cbn [m_params m_internals] in *. subst par2.
  apply (IH par1 st1' st2' R').
Qed.

(** C2 (as stated) fails: on a detector that was rising, direction -5
    makes [maximumFound] true and direction +5 gives a different state and
    return value from a stationary sample (direction 0); on a detector that
    was falling, direction +5 makes [minimumFound] true. *)
Lemma out_of_range_direction_triggers :
  maximumFound (m_internals rising_detector) (-5) = true /\
  minimumFound (m_internals falling_detector) 5 = true /\
  extremaCounter
    (m_internals (fst (detect (setSensitivity rising_detector 0) 3 5))) = 0 /\
  extremaCounter
    (m_internals (fst (detect (setSensitivity rising_detector 0) 3 0))) = 1 /\
  snd (detect (setSensitivity rising_detector 0) 3 5) = false /\
  snd (detect (setSensitivity rising_detector 0) 3 0) = true.
Proof. vm_compute. repeat split. Qed.

(** C2 (amended). A direction other than -1, 0, +1 acts through its sign:
    the two candidate predicates, the reset decision and the returned
    boolean are those of the call with the direction clamped to -1 or +1,
    and the state afterwards is the same except that [lastDirection]
    stores the raw value.  A negative value therefore is a maximum
    candidate after a rise, and a positive one a minimum candidate after a
    fall; and the return values of the calls that follow are those of the
    stream with every direction clamped. *)
Theorem out_of_range_direction_acts_as_sign
        (d : OscillatorDetector) (position direction : Z) :
  direction < -1 \/ 1 < direction ->
  let o := detect_full d position direction in
  let o' := detect_full d position (Z.sgn direction) in
  maximumFound (m_internals d) direction
  = (0 <? lastDirection (m_internals d)) && (direction <? 0) /\
  minimumFound (m_internals d) direction
  = (lastDirection (m_internals d) <? 0) && (0 <? direction) /\
  snd (detect d position direction) = verdict o' /\
  reset_flag o = reset_flag o' /\
  m_params (after o) = m_params (after o') /\
  m_internals (after o) = set_lastDirection (m_internals (after o')) direction
  /\
  (forall xs,
     verdicts d ((position, direction) :: xs)
     = verdicts d (clamp_directions ((position, direction) :: xs))).
Proof.
  intros Hd. cbn zeta.
  destruct (detect_full_sign d position direction) as (V & R & P & I).
  cbn zeta in *.
  repeat apply conj; try assumption.
  - unfold maximumFound. f_equal.
    destruct (Z.leb_spec direction 0), (Z.ltb_spec direction 0);
      reflexivity || lia.
  - unfold minimumFound. f_equal.
    destruct (Z.leb_spec 0 direction), (Z.ltb_spec 0 direction);
      reflexivity || lia.
  - intros xs. destruct d as [par st]. apply verdicts_clamped.
    destruct st. split; reflexivity.
Qed.

Lemma out_of_range_direction_acts_as_sign_witness :
  maximumFound (m_internals rising_detector) (-5) = true /\
  m_internals (after (detect_full rising_detector 3 (-5)))
  = set_lastDirection
      (m_internals (after (detect_full rising_detector 3 (-1)))) (-5).
Proof.
  assert (H : -5 < -1 \/ 1 < -5) by (left; lia).
  destruct (out_of_range_direction_acts_as_sign rising_detector 3 (-5) H)
    as (M & _ & _ & _ & _ & I & _).
  split; [rewrite M; reflexivity | exact I].
Defined.

(** ** Sentinels: the first candidate on each side *)

Lemma freshly_initialised_untouched d :
  freshly_initialised d ->
  untouched_maximum (m_internals d) /\ untouched_minimum (m_internals d).
Proof.
  intros [E | (d0 & p & dir & R & ->)].
  - rewrite E. repeat split.
  - destruct (detect_reset_state_aux d0 p dir R) as (Hmn & Hmx & Hmnc & Hmxc).
    repeat split; assumption.
Qed.

(** Calls that are no maximum candidate leave the maximum side untouched. *)
Lemma untouched_maximum_step d position direction :
  untouched_maximum (m_internals d) ->
  maximumFound (m_internals d) direction = false ->
  untouched_maximum (m_internals (fst (detect d position direction))).
Proof.
  destruct d as [par [ec ld mn mx mnc mxc]]. unfold untouched_maximum.
  cbn [m_internals maxFoundPos maximumDebounceCounter].
  intros [-> ->]. run_detect; intros; (discriminate || (split; reflexivity)).
Qed.

Lemma untouched_minimum_step d position direction :
  untouched_minimum (m_internals d) ->
  minimumFound (m_internals d) direction = false ->
  untouched_minimum (m_internals (fst (detect d position direction))).
Proof.
  destruct d as [par [ec ld mn mx mnc mxc]]. unfold untouched_minimum.
  cbn [m_internals minFoundPos minimumDebounceCounter].
  intros [-> ->]. run_detect; intros; (discriminate || (split; reflexivity)).
Qed.

Lemma untouched_maximum_stream xs : forall d,
  untouched_maximum (m_internals d) ->
  no_maximum_candidate d xs = true ->
  untouched_maximum (m_internals (final d xs)).
Proof.
  induction xs as [|[p dir] xs IH]; intros d Hu Hn; [exact Hu|].
  cbn [no_maximum_candidate final] in *.
  apply andb_true_iff in Hn as [Hc Hn]. apply negb_true_iff in Hc.
  apply IH; [apply untouched_maximum_step|]; assumption.
Qed.

Lemma untouched_minimum_stream xs : forall d,
  untouched_minimum (m_internals d) ->
  no_minimum_candidate d xs = true ->
  untouched_minimum (m_internals (final d xs)).
Proof.
  induction xs as [|[p dir] xs IH]; intros d Hu Hn; [exact Hu|].
  cbn [no_minimum_candidate final] in *.
  apply andb_true_iff in Hn as [Hc Hn]. apply negb_true_iff in Hc.
  apply IH; [apply untouched_minimum_step|]; assumption.
Qed.

(** On an untouched side a candidate at any [int64_t] position takes the
    confirmation branch. *)
Lemma untouched_maximum_confirms d position direction :
  untouched_maximum (m_internals d) ->
  is_int64 position ->
  maximumFound (m_internals d) direction = true ->
  let st' := m_internals (fst (detect d position direction)) in
  extremaCounter st' = to_uint8 (extremaCounter (m_internals d) + 1) /\
  maxFoundPos st' = position /\
  maximumDebounceCounter st' = 1 /\
  minimumDebounceCounter st' = 0 /\
  reset_flag (detect_full d position direction) = false.
Proof.
  intros [Hs Hc] [Hlo _] Hmax. unfold detect. cbn [fst].
  pose proof (detect_full_maximum d position direction Hmax) as E.
  unfold maximum_branch, maximum_first_cond, post_incr_maximum in E.
  rewrite Hs, Hc in E.
  assert (L : (INT64_MIN <=? position) = true) by (apply Z.leb_le; exact Hlo).
  rewrite L in E. cbn in E. rewrite E. cbn. repeat split.
Qed.

Lemma untouched_minimum_confirms d position direction :
  untouched_minimum (m_internals d) ->
  is_int64 position ->
  minimumFound (m_internals d) direction = true ->
  let st' := m_internals (fst (detect d position direction)) in
  extremaCounter st' = to_uint8 (extremaCounter (m_internals d) + 1) /\
  minFoundPos st' = position /\
  minimumDebounceCounter st' = 1 /\
  maximumDebounceCounter st' = 0 /\
  reset_flag (detect_full d position direction) = false.
Proof.
  intros [Hs Hc] [_ Hhi] Hmin. unfold detect. cbn [fst].
  pose proof (detect_full_minimum d position direction Hmin) as E.
  unfold minimum_branch, minimum_first_cond, post_incr_minimum in E.
  rewrite Hs, Hc in E.
  assert (L : (position <=? INT64_MAX) = true) by (apply Z.leb_le; exact Hhi).
  rewrite L in E. cbn in E. rewrite E. cbn. repeat split.
Qed.

(** C6. Start from a detector that was just constructed or just reset, and
    let any calls follow that are no maximum candidate.  Then the first
    maximum candidate, at any position of the [int64_t] range, takes the
    confirmation branch: [extremaCounter] is incremented (as a [uint8_t]),
    [maxFoundPos] becomes the position, and no reset happens.  The same
    holds for the first minimum candidate. *)
Theorem first_candidate_confirmed
        (d0 : OscillatorDetector) (prefix : list Sample)
        (position direction : Z) :
  freshly_initialised d0 ->
  is_int64 position ->
  let d := final d0 prefix in
  let st' := m_internals (fst (detect d position direction)) in
  (no_maximum_candidate d0 prefix = true ->
   maximumFound (m_internals d) direction = true ->
   extremaCounter st' = to_uint8 (extremaCounter (m_internals d) + 1) /\
   maxFoundPos st' = position /\
   maximumDebounceCounter st' = 1 /\
   minimumDebounceCounter st' = 0 /\
   reset_flag (detect_full d position direction) = false)
  /\
  (no_minimum_candidate d0 prefix = true ->
   minimumFound (m_internals d) direction = true ->
   extremaCounter st' = to_uint8 (extremaCounter (m_internals d) + 1) /\
   minFoundPos st' = position /\
   minimumDebounceCounter st' = 1 /\
   maximumDebounceCounter st' = 0 /\
   reset_flag (detect_full d position direction) = false).
Proof.
  intros Hfresh Hpos. cbn zeta.
  destruct (freshly_initialised_untouched d0 Hfresh) as [Umax Umin].
  split; intros Hn Hc.
  - apply untouched_maximum_confirms; auto using untouched_maximum_stream.
  - apply untouched_minimum_confirms; auto using untouched_minimum_stream.
Qed.

(** After construction: a trough is confirmed first, then the first peak,
    here at the lowest representable position. *)
Lemma first_candidate_confirmed_witness :
  extremaCounter
    (m_internals
       (fst (detect (final construct [(0, -1); (-1, -1); (0, 1); (1, 1)])
                    INT64_MIN (-1)))) = 2
  /\ maxFoundPos
       (m_internals
          (fst (detect (final construct [(0, -1); (-1, -1); (0, 1); (1, 1)])
                       INT64_MIN (-1)))) = INT64_MIN.
Proof.
  assert (F : freshly_initialised construct) by (left; reflexivity).
  assert (P : is_int64 INT64_MIN) by (unfold is_int64; vm_compute; split; discriminate).
  destruct (first_candidate_confirmed
              construct [(0, -1); (-1, -1); (0, 1); (1, 1)] INT64_MIN (-1) F P)
    as [M _].
  destruct (M eq_refl eq_refl) as (E & Q & _).
  split; [rewrite E; reflexivity | exact Q].
Defined.

(** ** Monotonic input *)

Lemma rising_call d position :
  extremaCounter (m_internals d) = 0 ->
  0 <= lastDirection (m_internals d) ->
  0 <= sensitivity (m_params d) ->
  detect d position 1
  = ({| m_params := m_params d;
        m_internals := set_lastDirection (m_internals d) 1 |}, false).
Proof.
  intros Hec Hld Hs. unfold detect.
  rewrite detect_full_no_candidate.
  - cbn [after verdict]. rewrite Hec. f_equal. apply Z.ltb_ge. exact Hs.
  - unfold maximumFound. apply andb_false_r.
  - unfold minimumFound. apply andb_false_iff. left. apply Z.ltb_ge. exact Hld.
Qed.

Lemma falling_call d position :
  extremaCounter (m_internals d) = 0 ->
  lastDirection (m_internals d) <= 0 ->
  0 <= sensitivity (m_params d) ->
  detect d position (-1)
  = ({| m_params := m_params d;
        m_internals := set_lastDirection (m_internals d) (-1) |}, false).
Proof.
  intros Hec Hld Hs. unfold detect.
  rewrite detect_full_no_candidate.
  - cbn [after verdict]. rewrite Hec. f_equal. apply Z.ltb_ge. exact Hs.
  - unfold maximumFound. apply andb_false_iff. left. apply Z.ltb_ge. exact Hld.
  - unfold minimumFound. apply andb_false_r.
Qed.

Lemma rising_stream positions : forall d,
  extremaCounter (m_internals d) = 0 ->
  0 <= lastDirection (m_internals d) ->
  0 <= sensitivity (m_params d) ->
  verdicts d (constant_direction 1 positions)
  = repeat false (length positions).
Proof.
  induction positions as [|p ps IH]; intros d Hec Hld Hs; [reflexivity|].
  cbn [constant_direction map verdicts length repeat].
  rewrite (rising_call d p Hec Hld Hs). cbn [fst snd]. f_equal.
  apply IH; cbn; (assumption || lia).
Qed.

Lemma falling_stream positions : forall d,
  extremaCounter (m_internals d) = 0 ->
  lastDirection (m_internals d) <= 0 ->
  0 <= sensitivity (m_params d) ->
  verdicts d (constant_direction (-1) positions)
  = repeat false (length positions).
Proof.
  induction positions as [|p ps IH]; intros d Hec Hld Hs; [reflexivity|].
  cbn [constant_direction map verdicts length repeat].
  rewrite (falling_call d p Hec Hld Hs). cbn [fst snd]. f_equal.
  apply IH; cbn; (assumption || lia).
Qed.

(** C7. On a freshly constructed detector, with any setting of
    sensitivity and smootherThreshold, a stream of calls whose direction
    is +1 throughout, or -1 throughout, returns false on every call,
    whatever the positions are. *)
Theorem monotonic_input_never_detected
        (sens threshold : Z) (positions : list Z) :
  verdicts (configured sens threshold) (constant_direction 1 positions)
  = repeat false (length positions)
  /\
  verdicts (configured sens threshold) (constant_direction (-1) positions)
  = repeat false (length positions).
Proof.
  pose proof (to_uint8_range sens) as [Hs _].
  split; [apply rising_stream | apply falling_stream];
    cbn; (reflexivity || lia || exact Hs).
Qed.

(** ** Determinism *)













(** ** The reference positions only ratchet *)

(** One call: [maxFoundPos] stays, is assigned a position not below it, or
    is reset to its sentinel; dually for [minFoundPos]. *)
Lemma foundPos_step d position direction :
  let st := m_internals d in
  let o := detect_full d position direction in
  let st' := m_internals (after o) in
  (maxFoundPos st' = maxFoundPos st
   \/ (maxFoundPos st <= position /\ maxFoundPos st' = position)
   \/ (reset_flag o = true /\ maxFoundPos st' = INT64_MIN))
  /\
  (minFoundPos st' = minFoundPos st
   \/ (position <= minFoundPos st /\ minFoundPos st' = position)
   \/ (reset_flag o = true /\ minFoundPos st' = INT64_MAX))
  /\
  (reset_flag o = false ->
   maxFoundPos st <= maxFoundPos st' /\ minFoundPos st' <= minFoundPos st).
Proof.
  destruct d as [par [ec ld mn mx mnc mxc]]. cbn zeta.
  run_detect;
    repeat split; intros; try discriminate; try lia; auto.
Qed.

Lemma foundPos_stream xs : forall d,
  no_reset d xs = true ->
  maxFoundPos (m_internals d) <= maxFoundPos (m_internals (final d xs)) /\
  minFoundPos (m_internals (final d xs)) <= minFoundPos (m_internals d).
Proof.
  induction xs as [|[p dir] xs IH]; intros d Hn; [cbn; lia|].
  cbn [no_reset final] in *.
  apply andb_true_iff in Hn as [Hr Hn]. apply negb_true_iff in Hr.
  destruct (foundPos_step d p dir) as (_ & _ & Hstep).
  specialize (Hstep Hr). specialize (IH _ Hn).
  unfold detect in *. cbn [fst] in *. lia.
Qed.

(** C10. Every call of [detect] leaves [maxFoundPos] unchanged, assigns
    it a position with [maxFoundPos <= position], or resets it to
    INT64_MIN; [minFoundPos] stays, is assigned a position with
    [position <= minFoundPos], or is reset to INT64_MAX.  Hence over any
    stream of calls none of which resets, [maxFoundPos] does not decrease
    and [minFoundPos] does not increase. *)
Theorem foundPos_ratchet
        (d : OscillatorDetector) (position direction : Z)
        (xs : list Sample) :
  let st := m_internals d in
  let o := detect_full d position direction in
  let st' := m_internals (fst (detect d position direction)) in
  (maxFoundPos st' = maxFoundPos st
   \/ (maxFoundPos st <= position /\ maxFoundPos st' = position)
   \/ (reset_flag o = true /\ maxFoundPos st' = INT64_MIN))
  /\
  (minFoundPos st' = minFoundPos st
   \/ (position <= minFoundPos st /\ minFoundPos st' = position)
   \/ (reset_flag o = true /\ minFoundPos st' = INT64_MAX))
  /\
  (no_reset d xs = true ->
   maxFoundPos st <= maxFoundPos (m_internals (final d xs)) /\
   minFoundPos (m_internals (final d xs)) <= minFoundPos st).
Proof.
  cbn zeta. destruct (foundPos_step d position direction) as (A & B & _).
  repeat split; [exact A | exact B | apply foundPos_stream; assumption
                | apply foundPos_stream; assumption].
Qed.

Lemma foundPos_ratchet_witness :
  no_reset construct staircase_prefix = true /\
  maxFoundPos (m_internals construct)
  <= maxFoundPos (m_internals (final construct staircase_prefix)) /\
  minFoundPos (m_internals (final construct staircase_prefix))
  <= minFoundPos (m_internals construct).
Proof.
  assert (H : no_reset construct staircase_prefix = true)
    by (vm_compute; reflexivity).
  split; [exact H|].
  exact (proj2 (proj2 (foundPos_ratchet construct 0 0 staircase_prefix)) H).
Defined.

(** * Further properties of the detector *)

(** ** Streams *)

Lemma final_app xs : forall d ys,
  final d (xs ++ ys) = final (final d xs) ys.
Proof.
  induction xs as [|[p dir] xs IH]; intros d ys; [reflexivity|].
  cbn [app final]. apply IH.
Qed.

Lemma verdicts_app xs : forall d ys,
  verdicts d (xs ++ ys) = verdicts d xs ++ verdicts (final d xs) ys.
Proof.
  induction xs as [|[p dir] xs IH]; intros d ys; [reflexivity|].
  cbn [app final verdicts]. now rewrite IH.
Qed.

Lemma no_reset_app xs : forall d ys,
  no_reset d (xs ++ ys) = no_reset d xs && no_reset (final d xs) ys.
Proof.
  induction xs as [|[p dir] xs IH]; intros d ys; [reflexivity|].
  cbn [app final no_reset]. rewrite IH. apply andb_assoc.
Qed.

Lemma final_params xs : forall d, m_params (final d xs) = m_params d.
Proof.
  induction xs as [|[p dir] xs IH]; intros d; [reflexivity|].
  cbn [final]. rewrite IH. unfold detect. cbn [fst]. apply detect_params.
Qed.

Lemma final_wf xs : forall d,
  wf_internals (m_internals d) -> wf_internals (m_internals (final d xs)).
Proof.
  induction xs as [|[p dir] xs IH]; intros d H; [exact H|].
  cbn [final]. apply IH. unfold detect. cbn [fst]. now apply detect_wf.
Qed.

(** ** Parameters *)

(** X1. [setSmootherThreshold(t)] followed by [getSmootherThreshold()]
    yields [t] for every [uint8_t] value, and the argument reduced modulo
    256 in general; the setter leaves [sensitivity] and the six internal
    fields unchanged. *)
Theorem setSmootherThreshold_getSmootherThreshold
        (d : OscillatorDetector) (t : Z) :
  is_uint8 t ->
  getSmootherThreshold (setSmootherThreshold d t) = t /\
  (forall v, getSmootherThreshold (setSmootherThreshold d v) = v mod 2 ^ 8) /\
  getSensitivity (setSmootherThreshold d t) = getSensitivity d /\
  m_internals (setSmootherThreshold d t) = m_internals d.
Proof.
  intros Ht. unfold getSensitivity, getSmootherThreshold, setSmootherThreshold.
  cbn [m_params m_internals sensitivity smootherThreshold].
  repeat split; auto using to_uint8_id.
Qed.

Lemma setSmootherThreshold_getSmootherThreshold_witness :
  is_uint8 0 /\
  getSmootherThreshold (setSmootherThreshold staircase_detector 0) = 0.
Proof.
  assert (H : is_uint8 0) by (unfold is_uint8; lia).
  exact (conj H (proj1 (setSmootherThreshold_getSmootherThreshold
                          staircase_detector 0 H))).
Defined.

(** X2. However many calls of [detect] are made, both getters keep
    returning what they returned before: [detect] never writes the
    parameters. *)
Theorem detect_keeps_parameters (d : OscillatorDetector) (xs : list Sample) :
  getSensitivity (final d xs) = getSensitivity d /\
  getSmootherThreshold (final d xs) = getSmootherThreshold d.
Proof.
  unfold getSensitivity, getSmootherThreshold. now rewrite final_params.
Qed.

(** X3. The three [uint8_t] counters stay within 0..255 over any stream
    of calls, and the setters do not disturb that. *)
Theorem counters_stay_uint8
        (d : OscillatorDetector) (s t : Z) (xs : list Sample) :
  wf_internals (m_internals d) ->
  wf_internals
    (m_internals (final (setSmootherThreshold (setSensitivity d s) t) xs)).
Proof. intros H. apply final_wf. exact H. Qed.

Lemma counters_stay_uint8_witness :
  wf_internals
    (m_internals
       (final (setSmootherThreshold (setSensitivity construct 300) 7)
              staircase_prefix)).
Proof.
  apply (counters_stay_uint8 construct 300 7 staircase_prefix).
  unfold wf_internals, is_uint8. cbn. lia.
Defined.

(** ** One call, exactly *)

(** X4. A call of [detect] schedules a reset exactly when it is a
    candidate strictly short of the reference position of its side
    (below [maxFoundPos] for a maximum candidate, above [minFoundPos] for
    a minimum candidate) and the debounce counter of that side is
    strictly greater than [smootherThreshold]. *)
Theorem reset_exactly (d : OscillatorDetector) (position direction : Z) :
  reset_flag (detect_full d position direction)
  = resets (m_params d) (m_internals d) position direction.
Proof.
  destruct d as [par [ec ld mn mx mnc mxc]]. unfold resets.
  run_detect; reflexivity.
Qed.

(** X5. After a call of [detect], [extremaCounter] is 0 if the call
    reset, its old value plus one (modulo 256) if the call was a candidate
    at or beyond the reference position of its side with a zero debounce
    counter on that side, and its old value otherwise. *)
Theorem extremaCounter_exactly
        (d : OscillatorDetector) (position direction : Z) :
  extremaCounter (m_internals (fst (detect d position direction)))
  = if resets (m_params d) (m_internals d) position direction then 0
    else if confirms (m_internals d) position direction
         then to_uint8 (extremaCounter (m_internals d) + 1)
         else extremaCounter (m_internals d).
Proof.
  destruct d as [par [ec ld mn mx mnc mxc]]. unfold resets, confirms.
  run_detect; reflexivity.
Qed.

(** The returned value is read off the state left behind, and that state
    records the direction. *)
Lemma detect_verdict_after d position direction :
  snd (detect d position direction)
  = (sensitivity (m_params d)
     <? extremaCounter (m_internals (fst (detect d position direction)))).
Proof.
  unfold detect, detect_full. cbn [fst snd].
  destruct (if maximumFound _ _ then _ else _) as [st1 r1].
  destruct (if minimumFound _ _ then _ else _) as [st2 r2].
  reflexivity.
Qed.

Lemma detect_lastDirection d position direction :
  lastDirection (m_internals (fst (detect d position direction))) = direction.
Proof.
  unfold detect, detect_full. cbn [fst snd].
  destruct (if maximumFound _ _ then _ else _) as [st1 r1].
  destruct (if minimumFound _ _ then _ else _) as [st2 r2].
  reflexivity.
Qed.

(** One call moves [extremaCounter] up by at most one. *)
Lemma extremaCounter_step_bound d position direction :
  0 <= extremaCounter (m_internals d) ->
  0 <= extremaCounter (m_internals (fst (detect d position direction)))
    <= extremaCounter (m_internals d) + 1.
Proof.
  destruct d as [par [ec ld mn mx mnc mxc]].
  cbn [m_internals extremaCounter]. intros Hec.
  assert (B : 0 <= to_uint8 (ec + 1) <= ec + 1).
  { unfold to_uint8. split; [apply Z.mod_pos_bound; lia|].
    apply Z.mod_le; lia. }
  run_detect; lia.
Qed.

(** X6. A maximum candidate at or above [maxFoundPos] always moves
    [maxFoundPos] to the position and advances [maximumDebounceCounter]
    (modulo 256) without resetting; it is counted, and clears
    [minimumDebounceCounter], only if [maximumDebounceCounter] was zero
    before the call.  Dually for a minimum candidate at or below
    [minFoundPos]. *)
Theorem advancing_candidate
        (d : OscillatorDetector) (position direction : Z) :
  let st := m_internals d in
  let st' := m_internals (fst (detect d position direction)) in
  (maximumFound st direction = true -> maxFoundPos st <= position ->
   maxFoundPos st' = position /\
   maximumDebounceCounter st' = to_uint8 (maximumDebounceCounter st + 1) /\
   extremaCounter st'
   = (if maximumDebounceCounter st =? 0
      then to_uint8 (extremaCounter st + 1) else extremaCounter st) /\
   minimumDebounceCounter st'
   = (if maximumDebounceCounter st =? 0
      then 0 else minimumDebounceCounter st) /\
   minFoundPos st' = minFoundPos st /\
   reset_flag (detect_full d position direction) = false)
  /\
  (minimumFound st direction = true -> position <= minFoundPos st ->
   minFoundPos st' = position /\
   minimumDebounceCounter st' = to_uint8 (minimumDebounceCounter st + 1) /\
   extremaCounter st'
   = (if minimumDebounceCounter st =? 0
      then to_uint8 (extremaCounter st + 1) else extremaCounter st) /\
   maximumDebounceCounter st'
   = (if minimumDebounceCounter st =? 0
      then 0 else maximumDebounceCounter st) /\
   maxFoundPos st' = maxFoundPos st /\
   reset_flag (detect_full d position direction) = false).
Proof.
  destruct d as [par [ec ld mn mx mnc mxc]]. cbn zeta.
  split; intros Hc Hp; run_detect; try discriminate; repeat split.
Qed.

(** A plateau at 7 after the plateaus of [staircase_prefix]: the seventh
    advancing maximum candidate in a row. *)
Lemma advancing_candidate_witness :
  maxFoundPos (m_internals (fst (detect staircase_detector 7 0))) = 7 /\
  maximumDebounceCounter (m_internals (fst (detect staircase_detector 7 0)))
  = 7 /\
  extremaCounter (m_internals (fst (detect staircase_detector 7 0))) = 2.
Proof.
  destruct (proj1 (advancing_candidate staircase_detector 7 0))
    as (A & B & C & _).
  - reflexivity.
  - vm_compute. discriminate.
  - split; [exact A|]. split; [rewrite B | rewrite C]; reflexivity.
Defined.

(** A call whose direction is the one recorded last does nothing. *)
Lemma detect_same_direction d position :
  detect d position (lastDirection (m_internals d))
  = (d, sensitivity (m_params d) <? extremaCounter (m_internals d)).
Proof.
  unfold detect. rewrite detect_full_no_candidate.
  - destruct d as [par [ec ld mn mx mnc mxc]]. reflexivity.
  - unfold maximumFound.
    destruct (Z.ltb_spec 0 (lastDirection (m_internals d))),
             (Z.leb_spec (lastDirection (m_internals d)) 0);
      reflexivity || lia.
  - unfold minimumFound.
    destruct (Z.ltb_spec (lastDirection (m_internals d)) 0),
             (Z.leb_spec 0 (lastDirection (m_internals d)));
      reflexivity || lia.
Qed.

Lemma same_direction_stream positions : forall d,
  final d (constant_direction (lastDirection (m_internals d)) positions) = d
  /\ verdicts d (constant_direction (lastDirection (m_internals d)) positions)
     = repeat (sensitivity (m_params d) <? extremaCounter (m_internals d))
              (length positions)
  /\ no_reset d (constant_direction (lastDirection (m_internals d)) positions)
     = true.
Proof.
  induction positions as [|p ps IH]; intros d; [repeat split|].
  cbn [constant_direction map final verdicts no_reset length repeat].
  assert (R : reset_flag
                (detect_full d p (lastDirection (m_internals d))) = false).
  { rewrite detect_full_no_candidate; [reflexivity| |].
    - unfold maximumFound.
      destruct (Z.ltb_spec 0 (lastDirection (m_internals d))),
               (Z.leb_spec (lastDirection (m_internals d)) 0);
        reflexivity || lia.
    - unfold minimumFound.
      destruct (Z.ltb_spec (lastDirection (m_internals d)) 0),
               (Z.leb_spec 0 (lastDirection (m_internals d)));
        reflexivity || lia. }
  rewrite R, detect_same_direction. cbn [fst snd negb andb].
  destruct (IH d) as (F & V & N). fold (constant_direction
    (lastDirection (m_internals d)) ps). rewrite F, V, N. repeat split.
Qed.

(** X7. Once a call has reported a direction, further calls with that
    same direction, at whatever positions, leave the whole detector
    unchanged, never reset, and return what that call returned. *)
Theorem repeated_direction_is_idle
        (d : OscillatorDetector) (position direction : Z)
        (positions : list Z) :
  let d' := fst (detect d position direction) in
  final d' (constant_direction direction positions) = d' /\
  verdicts d' (constant_direction direction positions)
  = repeat (snd (detect d position direction)) (length positions) /\
  no_reset d' (constant_direction direction positions) = true.
Proof.
  cbn zeta.
  pose proof (same_direction_stream positions (fst (detect d position direction)))
    as H.
  rewrite detect_lastDirection in H.
  rewrite detect_verdict_after.
  replace (m_params (fst (detect d position direction))) with (m_params d) in H
    by (unfold detect; cbn [fst]; now rewrite detect_params).
  exact H.
Qed.

(** ** What the parameters can and cannot do *)

(** [sensitivity] is read only in the return statement. *)
Lemma detect_full_sensitivity par1 par2 st position direction :
  smootherThreshold par1 = smootherThreshold par2 ->
  m_internals (after (detect_full (mkDetector par1 st) position direction))
  = m_internals (after (detect_full (mkDetector par2 st) position direction))
  /\ reset_flag (detect_full (mkDetector par1 st) position direction)
     = reset_flag (detect_full (mkDetector par2 st) position direction).
Proof.
  destruct par1 as [t1 s1], par2 as [t2 s2], st as [ec ld mn mx mnc mxc].
  cbn [smootherThreshold]. intros ->.
  run_detect; split; reflexivity.
Qed.

Lemma final_sensitivity xs : forall par1 par2 st,
  smootherThreshold par1 = smootherThreshold par2 ->
  m_internals (final (mkDetector par1 st) xs)
  = m_internals (final (mkDetector par2 st) xs).
Proof.
  induction xs as [|[p dir] xs IH]; intros par1 par2 st Ht; [reflexivity|].
  cbn [final]. unfold detect. cbn [fst].
  destruct (detect_full_sensitivity par1 par2 st p dir Ht) as [E _].
  pose proof (detect_params (mkDetector par1 st) p dir) as P1.
  pose proof (detect_params (mkDetector par2 st) p dir) as P2.
  destruct (after (detect_full (mkDetector par1 st) p dir)) as [q1 st1].
  destruct (after (detect_full (mkDetector par2 st) p dir)) as [q2 st2].
  cbn [m_params m_internals] in *. subst. now apply IH.
Qed.

Lemma verdicts_sensitivity xs : forall par1 par2 st,
  smootherThreshold par1 = smootherThreshold par2 ->
  sensitivity par1 <= sensitivity par2 ->
  Forall2 (fun hi lo => hi = true -> lo = true)
          (verdicts (mkDetector par2 st) xs)
          (verdicts (mkDetector par1 st) xs).
Proof.
  induction xs as [|[p dir] xs IH]; intros par1 par2 st Ht Hs;
    [constructor|].
  cbn [verdicts]. rewrite !detect_verdict_after. unfold detect. cbn [fst].
  destruct (detect_full_sensitivity par1 par2 st p dir Ht) as [E _].
  pose proof (detect_params (mkDetector par1 st) p dir) as P1.
  pose proof (detect_params (mkDetector par2 st) p dir) as P2.
  destruct (after (detect_full (mkDetector par1 st) p dir)) as [q1 st1].
  destruct (after (detect_full (mkDetector par2 st) p dir)) as [q2 st2].
  cbn [m_params m_internals] in *. subst. constructor.
  - intros H. apply Z.ltb_lt in H. apply Z.ltb_lt. lia.
  - now apply IH.
Qed.

(** X8. [sensitivity] only thresholds the return value: changing it
    leaves the evolution of the six internal fields over any stream
    untouched, and raising it can only turn returned trues into falses,
    call by call. *)
Theorem sensitivity_only_thresholds
        (d : OscillatorDetector) (s1 s2 : Z) (xs : list Sample) :
  to_uint8 s1 <= to_uint8 s2 ->
  m_internals (final (setSensitivity d s1) xs) = m_internals (final d xs) /\
  m_internals (final (setSensitivity d s2) xs) = m_internals (final d xs) /\
  Forall2 (fun hi lo => hi = true -> lo = true)
          (verdicts (setSensitivity d s2) xs)
          (verdicts (setSensitivity d s1) xs).
Proof.
  intros Hs. destruct d as [par st]. unfold setSensitivity.
  cbn [m_params m_internals].
  repeat split.
  - now apply final_sensitivity.
  - now apply final_sensitivity.
  - now apply verdicts_sensitivity.
Qed.

Lemma sensitivity_only_thresholds_witness :
  m_internals (final (setSensitivity construct 1) staircase_prefix)
  = m_internals (final construct staircase_prefix) /\
  Forall2 (fun hi lo => hi = true -> lo = true)
          (verdicts (setSensitivity construct 9) staircase_prefix)
          (verdicts (setSensitivity construct 1) staircase_prefix).
Proof.
  assert (H : to_uint8 1 <= to_uint8 9) by (vm_compute; discriminate).
  destruct (sensitivity_only_thresholds construct 1 9 staircase_prefix H)
    as (A & _ & B).
  exact (conj A B).
Defined.

Lemma verdicts_all_false xs : forall d,
  wf_internals (m_internals d) ->
  255 <= sensitivity (m_params d) ->
  verdicts d xs = repeat false (length xs).
Proof.
  induction xs as [|[p dir] xs IH]; intros d Hwf Hs; [reflexivity|].
  cbn [verdicts length repeat].
  pose proof (detect_wf d p dir Hwf) as Hwf'.
  rewrite IH.
  - f_equal. rewrite detect_verdict_after. apply Z.ltb_ge.
    unfold detect. cbn [fst].
    destruct Hwf' as [[_ H] _]. lia.
  - exact Hwf'.
  - unfold detect. cbn [fst]. now rewrite detect_params.
Qed.

(** X9. With [sensitivity] set to 255, [detect] never returns true: an
    8-bit [extremaCounter] cannot exceed it. *)
Theorem sensitivity_255_never_detects
        (d : OscillatorDetector) (xs : list Sample) :
  wf_internals (m_internals d) ->
  verdicts (setSensitivity d 255) xs = repeat false (length xs).
Proof.
  intros Hwf. apply verdicts_all_false; [exact Hwf|].
  cbn. lia.
Qed.

Lemma sensitivity_255_never_detects_witness :
  verdicts (setSensitivity staircase_detector 255) lower_peak_prefix
  = repeat false (length lower_peak_prefix).
Proof.
  apply (sensitivity_255_never_detects staircase_detector lower_peak_prefix).
  unfold wf_internals, is_uint8. vm_compute.
  repeat split; discriminate.
Defined.

Lemma no_reset_high_threshold xs : forall d,
  wf_internals (m_internals d) ->
  255 <= smootherThreshold (m_params d) ->
  no_reset d xs = true.
Proof.
  induction xs as [|[p dir] xs IH]; intros d Hwf Ht; [reflexivity|].
  cbn [no_reset]. rewrite IH.
  - rewrite andb_true_r. apply negb_true_iff.
    destruct d as [[t s] [ec ld mn mx mnc mxc]].
    destruct Hwf as (_ & Hmn & Hmx). unfold is_uint8 in *.
    cbn [m_internals m_params smootherThreshold minimumDebounceCounter
         maximumDebounceCounter] in *.
    pose proof (to_uint8_range (mnc + 1)) as R2.
    pose proof (to_uint8_range (mxc + 1)) as R3.
    unfold is_uint8 in *.
    run_detect; reflexivity.
  - unfold detect. cbn [fst]. now apply detect_wf.
  - unfold detect. cbn [fst]. now rewrite detect_params.
Qed.

(** X10. With [smootherThreshold] set to 255, no call of [detect] ever
    resets: an 8-bit debounce counter cannot exceed it. *)
Theorem threshold_255_never_resets
        (d : OscillatorDetector) (xs : list Sample) :
  wf_internals (m_internals d) ->
  no_reset (setSmootherThreshold d 255) xs = true.
Proof.
  intros Hwf. apply no_reset_high_threshold; [exact Hwf|].
  cbn. lia.
Qed.

Lemma threshold_255_never_resets_witness :
  no_reset (setSmootherThreshold staircase_detector 255) [(5, -1)] = true
  /\ no_reset staircase_detector [(5, -1)] = false.
Proof.
  split; [|reflexivity].
  apply (threshold_255_never_resets staircase_detector [(5, -1)]).
  unfold wf_internals, is_uint8. vm_compute.
  repeat split; discriminate.
Defined.

(** X11. A call that resets returns false. *)
Theorem resetting_call_returns_false
        (d : OscillatorDetector) (position direction : Z) :
  0 <= sensitivity (m_params d) ->
  reset_flag (detect_full d position direction) = true ->
  snd (detect d position direction) = false.
Proof.
  intros Hs Hr. rewrite detect_verdict_after.
  unfold detect, detect_full in *. cbn [fst] in *.
  destruct (if maximumFound _ _ then _ else _) as [st1 r1].
  destruct (if minimumFound _ _ then _ else _) as [st2 r2].
  cbn [reset_flag after m_internals] in *. subst r2. cbn.
  apply Z.ltb_ge. exact Hs.
Qed.

Lemma resetting_call_returns_false_witness :
  snd (detect (setSensitivity staircase_detector 0) 5 (-1)) = false
  /\ snd (detect (setSensitivity staircase_detector 0) 7 0) = true.
Proof.
  split; [|reflexivity].
  apply (resetting_call_returns_false (setSensitivity staircase_detector 0)
                                      5 (-1)).
  - vm_compute. discriminate.
  - vm_compute. reflexivity.
Defined.

Lemma verdicts_before_count xs : forall d,
  0 <= extremaCounter (m_internals d) ->
  extremaCounter (m_internals d) + Z.of_nat (length xs)
  <= sensitivity (m_params d) ->
  verdicts d xs = repeat false (length xs).
Proof.
  induction xs as [|[p dir] xs IH]; intros d Hec Hlen; [reflexivity|].
  cbn [verdicts length repeat] in *.
  pose proof (extremaCounter_step_bound d p dir Hec) as B.
  rewrite IH.
  - f_equal. rewrite detect_verdict_after. apply Z.ltb_ge. lia.
  - lia.
  - replace (m_params (fst (detect d p dir))) with (m_params d)
      by (unfold detect; cbn [fst]; now rewrite detect_params).
    lia.
Qed.

(** X12. A detector whose internal state is the default one returns
    false on at least its first [sensitivity + 1] calls, whatever the
    samples are: the first call cannot be a candidate and every later
    call adds at most one to [extremaCounter]. *)
Theorem detection_latency (d : OscillatorDetector) (xs : list Sample) :
  m_internals d = default_internals ->
  Z.of_nat (length xs) <= sensitivity (m_params d) + 1 ->
  verdicts d xs = repeat false (length xs).
Proof.
  intros Hd Hlen. destruct xs as [|[p dir] xs]; [reflexivity|].
  cbn [verdicts length repeat] in *.
  assert (E : detect d p dir
              = ({| m_params := m_params d;
                    m_internals := set_lastDirection default_internals dir |},
                 sensitivity (m_params d) <? 0)).
  { unfold detect. rewrite detect_full_no_candidate; rewrite Hd; reflexivity. }
  rewrite E. cbn [fst snd]. f_equal.
  - apply Z.ltb_ge. lia.
  - apply verdicts_before_count; cbn; lia.
Qed.

Lemma detection_latency_witness :
  verdicts construct [(1, 1); (0, -1); (1, 1); (0, -1); (1, 1); (0, -1)]
  = repeat false 6
  /\ verdicts construct
       [(1, 1); (0, -1); (1, 1); (0, -1); (1, 1); (0, -1); (1, 1)]
     = repeat false 6 ++ [true].
Proof.
  split; [|reflexivity].
  apply (detection_latency
           construct [(1, 1); (0, -1); (1, 1); (0, -1); (1, 1); (0, -1)]).
  - reflexivity.
  - vm_compute. discriminate.
Defined.

(** ** Oscillations *)

Lemma to_uint8_succ e : to_uint8 (to_uint8 e + 1) = to_uint8 (e + 1).
Proof. unfold to_uint8. apply Z.add_mod_idemp_l. lia. Qed.

(** The state left by a counted turn. *)
Lemma confirmed_turn d position direction :
  (maximumFound (m_internals d) direction = true /\
   maxFoundPos (m_internals d) <= position /\
   maximumDebounceCounter (m_internals d) = 0 ->
   detect_full d position direction
   = {| after :=
          {| m_params := m_params d;
             m_internals :=
               mkInternals (to_uint8 (extremaCounter (m_internals d) + 1))
                           direction (minFoundPos (m_internals d)) position
                           0 1 |};
        reset_flag := false;
        verdict := sensitivity (m_params d)
                   <? to_uint8 (extremaCounter (m_internals d) + 1) |})
  /\
  (minimumFound (m_internals d) direction = true /\
   position <= minFoundPos (m_internals d) /\
   minimumDebounceCounter (m_internals d) = 0 ->
   detect_full d position direction
   = {| after :=
          {| m_params := m_params d;
             m_internals :=
               mkInternals (to_uint8 (extremaCounter (m_internals d) + 1))
                           direction position (maxFoundPos (m_internals d))
                           1 0 |};
        reset_flag := false;
        verdict := sensitivity (m_params d)
                   <? to_uint8 (extremaCounter (m_internals d) + 1) |}).
Proof.
  destruct d as [par [ec ld mn mx mnc mxc]].
  split; intros (Hc & Hp & Hz); cbn in Hz; subst;
    run_detect; try discriminate; reflexivity.
Qed.

(** One leg from a state that is ready for it. *)
Lemma counted_leg up d (l : Leg) :
  ready up (m_internals d) ->
  (if up then maxFoundPos (m_internals d) <= fst l
   else fst l <= minFoundPos (m_internals d)) ->
  let dir := if up then -1 else 1 in
  let d' := final d (leg_samples dir l) in
  extremaCounter (m_internals d')
  = to_uint8 (extremaCounter (m_internals d) + 1) /\
  ready (negb up) (m_internals d') /\
  maxFoundPos (m_internals d')
  = (if up then fst l else maxFoundPos (m_internals d)) /\
  minFoundPos (m_internals d')
  = (if up then minFoundPos (m_internals d) else fst l) /\
  m_params d' = m_params d /\
  verdicts d (leg_samples dir l)
  = repeat (sensitivity (m_params d)
            <? to_uint8 (extremaCounter (m_internals d) + 1))
           (S (length (snd l))) /\
  no_reset d (leg_samples dir l) = true.
Proof.
  destruct l as [p rest]. cbn [fst snd]. intros Hr Hp. cbn zeta.
  unfold leg_samples. cbn [fst snd final verdicts no_reset repeat].
  unfold detect. cbn [fst snd].
  destruct up; cbn [negb] in *; destruct Hr as [Hld Hz].
  - assert (Hc : maximumFound (m_internals d) (-1) = true).
    { unfold maximumFound. apply andb_true_iff. split;
        [apply Z.ltb_lt; exact Hld | reflexivity]. }
    rewrite (proj1 (confirmed_turn d p (-1)) (conj Hc (conj Hp Hz))).
    cbn [after reset_flag verdict negb andb].
    match goal with |- context [final ?D (constant_direction _ rest)] =>
      destruct (same_direction_stream rest D) as (F & V & N) end.
    cbn [m_internals lastDirection m_params extremaCounter] in F, V, N.
    rewrite F, V, N. cbn. repeat split.
  - assert (Hc : minimumFound (m_internals d) 1 = true).
    { unfold minimumFound. apply andb_true_iff. split;
        [apply Z.ltb_lt; exact Hld | reflexivity]. }
    rewrite (proj2 (confirmed_turn d p 1) (conj Hc (conj Hp Hz))).
    cbn [after reset_flag verdict negb andb].
    match goal with |- context [final ?D (constant_direction _ rest)] =>
      destruct (same_direction_stream rest D) as (F & V & N) end.
    cbn [m_internals lastDirection m_params extremaCounter] in F, V, N.
    rewrite F, V, N. cbn. repeat split.
Qed.

Lemma counted_swing legs : forall up d e,
  extremaCounter (m_internals d) = to_uint8 e ->
  ready up (m_internals d) ->
  growing up (maxFoundPos (m_internals d)) (minFoundPos (m_internals d)) legs ->
  extremaCounter (m_internals (final d (swing up legs)))
  = to_uint8 (e + Z.of_nat (length legs)) /\
  verdicts d (swing up legs) = swing_verdicts (sensitivity (m_params d)) e legs
  /\ no_reset d (swing up legs) = true.
Proof.
  induction legs as [|l ls IH]; intros up d e He Hr Hg.
  - cbn. rewrite Z.add_0_r. repeat split. exact He.
  - cbn [swing growing swing_verdicts length] in *.
    assert (Hp : if up then maxFoundPos (m_internals d) <= fst l
                 else fst l <= minFoundPos (m_internals d))
      by (destruct up; tauto).
    destruct (counted_leg up d l Hr Hp) as (E & R & Mx & Mn & P & V & N).
    cbn zeta in *.
    rewrite final_app, verdicts_app, no_reset_app, V, N.
    set (d' := final d (leg_samples (if up then -1 else 1) l)) in *.
    assert (He' : extremaCounter (m_internals d') = to_uint8 (e + 1))
      by (rewrite E, He; apply to_uint8_succ).
    assert (Hg' : growing (negb up) (maxFoundPos (m_internals d'))
                          (minFoundPos (m_internals d')) ls).
    { rewrite Mx, Mn. destruct up; cbn [negb]; tauto. }
    destruct (IH (negb up) d' (e + 1) He' R Hg') as (E2 & V2 & N2).
    rewrite E2, V2, N2, P, He, to_uint8_succ.
    repeat split. f_equal. lia.
Qed.

(** X13. A growing or steady oscillation is counted turn by turn.  From
    a state that has been moving towards the first turn with a zero
    debounce counter on that side, if every peak lies at or above the
    previous one and every trough at or below the previous one (however
    many samples lie between the turns), then no call resets, every turn
    adds one to [extremaCounter] modulo 256, and [detect] returns
    [sensitivity < (extremaCounter + k) mod 256] throughout the k-th
    leg. *)
Theorem growing_oscillation_counted
        (up : bool) (d : OscillatorDetector) (legs : list Leg) :
  wf_internals (m_internals d) ->
  ready up (m_internals d) ->
  growing up (maxFoundPos (m_internals d)) (minFoundPos (m_internals d)) legs ->
  extremaCounter (m_internals (final d (swing up legs)))
  = to_uint8 (extremaCounter (m_internals d) + Z.of_nat (length legs)) /\
  verdicts d (swing up legs)
  = swing_verdicts (sensitivity (m_params d))
                   (extremaCounter (m_internals d)) legs /\
  no_reset d (swing up legs) = true.
Proof.
  intros (Hec & _) Hr Hg. apply counted_swing; try assumption.
  symmetry. apply to_uint8_id. exact Hec.
Qed.

(** A triangle wave between 0 and 3 on a default detector that has seen
    the first rise: the sixth turn is the first to return true. *)
Lemma growing_oscillation_counted_witness :
  verdicts (final construct [(1, 1); (2, 1); (3, 1)])
           (swing true [(2, [1; 0]); (1, [2; 3]); (2, [1; 0]);
                        (1, [2; 3]); (2, [1; 0]); (1, [2; 3])])
  = repeat false 15 ++ repeat true 3
  /\ extremaCounter
       (m_internals
          (final (final construct [(1, 1); (2, 1); (3, 1)])
                 (swing true [(2, [1; 0]); (1, [2; 3]); (2, [1; 0]);
                              (1, [2; 3]); (2, [1; 0]); (1, [2; 3])]))) = 6.
Proof.
  destruct (growing_oscillation_counted
              true (final construct [(1, 1); (2, 1); (3, 1)])
              [(2, [1; 0]); (1, [2; 3]); (2, [1; 0]);
               (1, [2; 3]); (2, [1; 0]); (1, [2; 3])])
    as (E & V & _).
  - unfold wf_internals, is_uint8. vm_compute. repeat split; discriminate.
  - vm_compute. split; reflexivity.
  - vm_compute. repeat split; discriminate.
  - split; [rewrite V | rewrite E]; reflexivity.
Defined.

(** ** Samples inside the envelope *)

(** A call strictly between the two reference positions, with both
    debounce counters within the threshold, only records the direction. *)
Lemma idle_call d position direction :
  minFoundPos (m_internals d) < position < maxFoundPos (m_internals d) ->
  maximumDebounceCounter (m_internals d) <= smootherThreshold (m_params d) ->
  minimumDebounceCounter (m_internals d) <= smootherThreshold (m_params d) ->
  detect_full d position direction
  = {| after := {| m_params := m_params d;
                   m_internals := set_lastDirection (m_internals d) direction |};
       reset_flag := false;
       verdict := sensitivity (m_params d) <? extremaCounter (m_internals d) |}.
Proof.
  destruct d as [[t s] [ec ld mn mx mnc mxc]]. cbn. intros Hp Hmx Hmn.
  run_detect; reflexivity.
Qed.

Lemma idle_stream xs : forall d,
  maximumDebounceCounter (m_internals d) <= smootherThreshold (m_params d) ->
  minimumDebounceCounter (m_internals d) <= smootherThreshold (m_params d) ->
  Forall (fun x => minFoundPos (m_internals d) < fst x
                   < maxFoundPos (m_internals d)) xs ->
  set_lastDirection (m_internals (final d xs)) 0
  = set_lastDirection (m_internals d) 0 /\
  verdicts d xs
  = repeat (sensitivity (m_params d) <? extremaCounter (m_internals d))
           (length xs) /\
  no_reset d xs = true.
Proof.
  induction xs as [|[p dir] xs IH]; intros d Hmx Hmn Hall; [repeat split|].
  inversion Hall as [|x l Hp Hrest]; subst. cbn [fst] in Hp.
  cbn [final verdicts no_reset length repeat]. unfold detect. cbn [fst snd].
  rewrite (idle_call d p dir Hp Hmx Hmn).
  cbn [after reset_flag verdict negb andb].
  destruct (IH {| m_params := m_params d;
                  m_internals := set_lastDirection (m_internals d) dir |})
    as (F & V & N); try assumption.
  rewrite F, V, N. destruct d as [par []]. repeat split.
Qed.

(** X14. While both debounce counters are within [smootherThreshold],
    any stream of samples whose positions lie strictly between
    [minFoundPos] and [maxFoundPos] is ignored, whatever its directions:
    no call resets, [extremaCounter], both reference positions and both
    debounce counters keep their values, and every call returns the same
    value. *)
Theorem inside_envelope_ignored (d : OscillatorDetector) (xs : list Sample) :
  maximumDebounceCounter (m_internals d) <= smootherThreshold (m_params d) ->
  minimumDebounceCounter (m_internals d) <= smootherThreshold (m_params d) ->
  Forall (fun x => minFoundPos (m_internals d) < fst x
                   < maxFoundPos (m_internals d)) xs ->
  let st := m_internals d in
  let st' := m_internals (final d xs) in
  extremaCounter st' = extremaCounter st /\
  minFoundPos st' = minFoundPos st /\
  maxFoundPos st' = maxFoundPos st /\
  minimumDebounceCounter st' = minimumDebounceCounter st /\
  maximumDebounceCounter st' = maximumDebounceCounter st /\
  verdicts d xs
  = repeat (sensitivity (m_params d) <? extremaCounter st) (length xs) /\
  no_reset d xs = true.
Proof.
  intros Hmx Hmn Hall. cbn zeta.
  destruct (idle_stream xs d Hmx Hmn Hall) as (F & V & N).
  destruct (m_internals (final d xs)), (m_internals d).
  cbn in *. inversion F. subst. repeat split; assumption.
Qed.

(** A detector that has counted a peak at 10 and a trough at -10, then
    small wiggles around zero. *)
Lemma inside_envelope_ignored_witness :
  extremaCounter
    (m_internals
       (final (final construct [(9, 1); (10, 1); (10, 0); (-9, -1); (-10, 1)])
              [(1, 1); (0, -1); (2, 1); (2, 0); (-3, -1); (4, 5)])) = 2
  /\ no_reset (final construct [(9, 1); (10, 1); (10, 0); (-9, -1); (-10, 1)])
              [(1, 1); (0, -1); (2, 1); (2, 0); (-3, -1); (4, 5)] = true.
Proof.
  destruct (inside_envelope_ignored
              (final construct [(9, 1); (10, 1); (10, 0); (-9, -1); (-10, 1)])
              [(1, 1); (0, -1); (2, 1); (2, 0); (-3, -1); (4, 5)])
    as (E & _ & _ & _ & _ & _ & N).
  - vm_compute. discriminate.
  - vm_compute. discriminate.
  - repeat constructor; vm_compute; reflexivity.
  - split; [rewrite E; reflexivity | exact N].
Defined.

(** ** A staircase *)

Lemma plateau d p :
  0 <= lastDirection (m_internals d) ->
  maxFoundPos (m_internals d) <= p ->
  let st := m_internals d in
  final d [(p, 1); (p, 0)]
  = {| m_params := m_params d;
       m_internals :=
         mkInternals
           (if maximumDebounceCounter st =? 0
            then to_uint8 (extremaCounter st + 1) else extremaCounter st)
           0 (minFoundPos st) p
           (if maximumDebounceCounter st =? 0
            then 0 else minimumDebounceCounter st)
           (to_uint8 (maximumDebounceCounter st + 1)) |}.
Proof.
  destruct d as [par [ec ld mn mx mnc mxc]]. cbn. intros Hld Hp.
  run_detect; reflexivity.
Qed.

Lemma staircase_counters n : forall p d m,
  0 <= m ->
  0 <= lastDirection (m_internals d) ->
  maxFoundPos (m_internals d) <= p + 1 ->
  maximumDebounceCounter (m_internals d) = to_uint8 m ->
  extremaCounter (m_internals d) = to_uint8 ((m + 255) / 256) ->
  let st' := m_internals (final d (staircase p n)) in
  maximumDebounceCounter st' = to_uint8 (m + Z.of_nat n) /\
  extremaCounter st' = to_uint8 ((m + Z.of_nat n + 255) / 256).
Proof.
  induction n as [|n IH]; intros p d m Hm Hld Hp Hc He; cbn zeta.
  - cbn [staircase final Z.of_nat]. rewrite Z.add_0_r. split; assumption.
  - cbn [staircase].
    change ((p + 1, 1) :: (p + 1, 0) :: staircase (p + 1) n)
      with ([(p + 1, 1); (p + 1, 0)] ++ staircase (p + 1) n).
    rewrite final_app, (plateau d (p + 1) Hld Hp). cbn zeta.
    match goal with |- context [final ?D (staircase _ n)] =>
      destruct (IH (p + 1) D (m + 1)) as [C E] end.
    + lia.
    + cbn. lia.
    + cbn. lia.
    + cbn. rewrite Hc. apply to_uint8_succ.
    + cbn [m_internals extremaCounter]. rewrite Hc, He.
      unfold to_uint8.
      destruct (Z.eqb_spec (m mod 256) 0) as [Z0|NZ].
      * rewrite Z.add_mod_idemp_l by lia. f_equal.
        Z.to_euclidean_division_equations. lia.
      * f_equal. Z.to_euclidean_division_equations. lia.
    + rewrite C, E.
      replace (m + 1 + Z.of_nat n) with (m + Z.of_nat (S n)) by lia.
      split; reflexivity.
Qed.

(** X15. A signal that only rises and pauses is still counted now and
    then.  On a detector in its default internal state, after [n] rising
    plateaus [maximumDebounceCounter] is [n mod 256] and [extremaCounter]
    is [ceil(n / 256) mod 256]: the first plateau is counted, and because
    the 8-bit debounce counter wraps to zero, so is every 256th plateau
    after it. *)
Theorem staircase_counted_on_wrap
        (d : OscillatorDetector) (p : Z) (n : nat) :
  m_internals d = default_internals ->
  INT64_MIN <= p + 1 ->
  let st' := m_internals (final d (staircase p n)) in
  maximumDebounceCounter st' = Z.of_nat n mod 256 /\
  extremaCounter st' = ((Z.of_nat n + 255) / 256) mod 256.
Proof.
  intros Hd Hp.
  apply (staircase_counters n p d 0); rewrite ?Hd.
  - lia.
  - cbn. lia.
  - exact Hp.
  - reflexivity.
  - reflexivity.
Qed.

(** 1281 plateaus on a default detector: the sixth count. *)
Lemma staircase_counted_on_wrap_witness :
  extremaCounter (m_internals (final construct (staircase 0 1281))) = 6
  /\ snd (detect (final construct (staircase 0 1281)) 1282 1) = true.
Proof.
  destruct (staircase_counted_on_wrap construct 0 1281) as [_ E].
  - reflexivity.
  - vm_compute. discriminate.
  - split; [rewrite E; reflexivity | vm_compute; reflexivity].
Defined.

(** ** The test harness *)

Lemma wrap_int64_id x : is_int64 x -> wrap_int64 x = x.
Proof.
  unfold is_int64, wrap_int64, INT64_MIN, INT64_MAX. intros H.
  rewrite Z.mod_small; lia.
Qed.

Lemma direction_of_sgn_aux position prev :
  is_int64 (position - prev) ->
  direction_of position prev = Z.sgn (position - prev) /\
  -1 <= direction_of position prev <= 1.
Proof.
  intros Hr. unfold direction_of, clamp. rewrite (wrap_int64_id _ Hr).
  destruct (Z.sgn_spec (position - prev)) as [[H ->]|[[H ->]|[H ->]]];
    destruct (Z.ltb_spec (position - prev) (-1)),
             (Z.ltb_spec 1 (position - prev)); lia.
Qed.



(** At the limits the subtraction wraps and the direction is no longer
    the sign of the change. *)
Example direction_of_overflow :
  direction_of INT64_MAX (-1) = -1 /\ Z.sgn (INT64_MAX - -1) = 1.
Proof. split; reflexivity. Qed.

(** The loop accumulates the disjunction of the values [detect] returns
    on the samples it builds. *)
Lemma harness_loop_verdicts positions : forall d prev detected,
  harness_loop d prev detected positions
  = (final d (harness_samples prev positions),
     detected || existsb (fun b => b) (verdicts d (harness_samples prev positions))).
Proof.
  induction positions as [|p ps IH]; intros d prev detected.
  - cbn. now rewrite orb_false_r.
  - cbn [harness_loop harness_samples final verdicts existsb].
    rewrite IH. now rewrite orb_assoc.
Qed.

Lemma existsb_repeat_false n : existsb (fun b => b) (repeat false n) = false.
Proof. induction n; [reflexivity|exact IHn]. Qed.

Lemma rising_samples rest : forall p,
  rising_from p rest -> steps_in_range p rest ->
  harness_samples p rest = constant_direction 1 rest.
Proof.
  induction rest as [|q rest IH]; intros p H S; [reflexivity|].
  destruct H as [Hlt H]. destruct S as [Sq S].
  cbn [harness_samples constant_direction map].
  rewrite (IH q H S). f_equal. f_equal.
  destruct (direction_of_sgn_aux q p Sq) as [E _]. rewrite E.
  apply Z.sgn_pos. lia.
Qed.

Lemma falling_samples rest : forall p,
  falling_from p rest -> steps_in_range p rest ->
  harness_samples p rest = constant_direction (-1) rest.
Proof.
  induction rest as [|q rest IH]; intros p H S; [reflexivity|].
  destruct H as [Hlt H]. destruct S as [Sq S].
  cbn [harness_samples constant_direction map].
  rewrite (IH q H S). f_equal. f_equal.
  destruct (direction_of_sgn_aux q p Sq) as [E _]. rewrite E.
  apply Z.sgn_neg. lia.
Qed.

(** The first call on default internals is never a candidate. *)
Lemma first_call d position direction :
  m_internals d = default_internals ->
  0 <= sensitivity (m_params d) ->
  detect d position direction
  = ({| m_params := m_params d;
        m_internals := set_lastDirection default_internals direction |},
     false).
Proof.
  intros Hd Hs. unfold detect.
  rewrite detect_full_no_candidate; rewrite Hd; try reflexivity.
  cbn [after verdict fst snd extremaCounter default_internals]. f_equal.
  apply Z.ltb_ge. exact Hs.
Qed.

Lemma harness_rising d prev p0 rest :
  m_internals d = default_internals ->
  0 <= sensitivity (m_params d) ->
  prev <= p0 -> rising_from p0 rest ->
  steps_in_range prev (p0 :: rest) ->
  snd (harness_loop d prev false (p0 :: rest)) = false /\
  extremaCounter (m_internals (fst (harness_loop d prev false (p0 :: rest))))
  = 0.
Proof.
  intros Hd Hs Hp Hr [S0 S]. rewrite harness_loop_verdicts. cbn [fst snd orb].
  cbn [harness_samples final verdicts existsb].
  rewrite (rising_samples rest p0 Hr S).
  rewrite (first_call d p0 (direction_of p0 prev) Hd Hs). cbn [fst snd orb].
  assert (Hdir : 0 <= direction_of p0 prev).
  { destruct (direction_of_sgn_aux p0 prev S0) as [E _]. rewrite E.
    apply Z.sgn_nonneg. lia. }
  split.
  - rewrite rising_stream; [apply existsb_repeat_false|reflexivity| |];
      cbn; assumption.
  - clear Hr. revert Hdir. generalize (direction_of p0 prev). intros l Hl.
    assert (G : forall ps d0, extremaCounter (m_internals d0) = 0 ->
                0 <= lastDirection (m_internals d0) ->
                0 <= sensitivity (m_params d0) ->
                extremaCounter
                  (m_internals (final d0 (constant_direction 1 ps))) = 0).
    { induction ps as [|q ps IH]; intros d0 H1 H2 H3; [exact H1|].
      cbn [constant_direction map final].
      rewrite (rising_call d0 q H1 H2 H3). cbn [fst].
      apply IH; cbn; (assumption || lia). }
    apply G; cbn; (reflexivity || assumption).
Qed.

Lemma harness_falling d prev p0 rest :
  m_internals d = default_internals ->
  0 <= sensitivity (m_params d) ->
  p0 <= prev -> falling_from p0 rest ->
  steps_in_range prev (p0 :: rest) ->
  snd (harness_loop d prev false (p0 :: rest)) = false /\
  extremaCounter (m_internals (fst (harness_loop d prev false (p0 :: rest))))
  = 0.
Proof.
  intros Hd Hs Hp Hr [S0 S]. rewrite harness_loop_verdicts. cbn [fst snd orb].
  cbn [harness_samples final verdicts existsb].
  rewrite (falling_samples rest p0 Hr S).
  rewrite (first_call d p0 (direction_of p0 prev) Hd Hs). cbn [fst snd orb].
  assert (Hdir : direction_of p0 prev <= 0).
  { destruct (direction_of_sgn_aux p0 prev S0) as [E _]. rewrite E.
    apply Z.sgn_nonpos. lia. }
  split.
  - rewrite falling_stream; [apply existsb_repeat_false|reflexivity| |];
      cbn; assumption.
  - clear Hr. revert Hdir. generalize (direction_of p0 prev). intros l Hl.
    assert (G : forall ps d0, extremaCounter (m_internals d0) = 0 ->
                lastDirection (m_internals d0) <= 0 ->
                0 <= sensitivity (m_params d0) ->
                extremaCounter
                  (m_internals (final d0 (constant_direction (-1) ps))) = 0).
    { induction ps as [|q ps IH]; intros d0 H1 H2 H3; [exact H1|].
      cbn [constant_direction map final].
      rewrite (falling_call d0 q H1 H2 H3). cbn [fst].
      apply IH; cbn; (assumption || lia). }
    apply G; cbn; (reflexivity || assumption).
Qed.

(** X17. Driven by the harness loop, and provided none of the loop's
    [int64_t] subtractions [position - prev] overflows, a fresh detector
    with any parameter settings never reports a signal whose positions
    strictly increase after the first sample (which may repeat [prev]),
    and its [extremaCounter] is still 0 at the end; likewise for a
    strictly decreasing signal. *)
Theorem harness_monotone_not_detected
        (sens threshold prev p0 : Z) (rest : list Z) :
  (prev <= p0 /\ rising_from p0 rest) \/ (p0 <= prev /\ falling_from p0 rest) ->
  steps_in_range prev (p0 :: rest) ->
  snd (harness_loop (configured sens threshold) prev false (p0 :: rest))
  = false /\
  extremaCounter
    (m_internals
       (fst (harness_loop (configured sens threshold) prev false (p0 :: rest))))
  = 0.
Proof.
  pose proof (to_uint8_range sens) as [Hs _].
  intros [[Hp Hr] | [Hp Hr]] S.
  - apply harness_rising; (reflexivity || assumption).
  - apply harness_falling; (reflexivity || assumption).
Qed.

Lemma harness_monotone_not_detected_witness :
  snd (harness_loop (configured 0 0) 10 false [10; 7; 3; -4; -5]) = false.
Proof.
  apply (harness_monotone_not_detected 0 0 10 10 [7; 3; -4; -5]).
  - right. cbn. lia.
  - unfold steps_in_range, is_int64. vm_compute.
    repeat split; discriminate.
Defined.

(** Without the proviso the loop does report a rising signal: the first
    difference below overflows and is taken for a fall. *)
Example harness_overflow :
  rising_from INT64_MIN [0; 1] /\
  harness_loop (configured 0 0) INT64_MIN false [INT64_MIN; 0; 1]
  = ({| m_params := mkParams 0 0;
        m_internals := mkInternals 1 1 1 INT64_MIN 1 0 |}, true).
Proof. split; [cbn; lia | reflexivity]. Qed.






(** ** One-sided signals *)

Lemma no_minimum_candidate_never_falling xs : forall d,
  0 <= lastDirection (m_internals d) ->
  Forall (fun x => 0 <= snd x) xs ->
  no_minimum_candidate d xs = true.
Proof.
  induction xs as [|[p dir] xs IH]; intros d Hld Hall; [reflexivity|].
  inversion Hall as [|x l Hdir Hrest]; subst. cbn [snd] in Hdir.
  cbn [no_minimum_candidate]. apply andb_true_iff. split.
  - apply negb_true_iff. unfold minimumFound. apply andb_false_iff. left.
    apply Z.ltb_ge. exact Hld.
  - apply IH; [rewrite detect_lastDirection|]; assumption.
Qed.

Lemma no_maximum_candidate_never_rising xs : forall d,
  lastDirection (m_internals d) <= 0 ->
  Forall (fun x => snd x <= 0) xs ->
  no_maximum_candidate d xs = true.
Proof.
  induction xs as [|[p dir] xs IH]; intros d Hld Hall; [reflexivity|].
  inversion Hall as [|x l Hdir Hrest]; subst. cbn [snd] in Hdir.
  cbn [no_maximum_candidate]. apply andb_true_iff. split.
  - apply negb_true_iff. unfold maximumFound. apply andb_false_iff. left.
    apply Z.ltb_ge. exact Hld.
  - apply IH; [rewrite detect_lastDirection|]; assumption.
Qed.

(** X19. On a detector in its default internal state, a stream whose
    directions are never negative contains no minimum candidate, and the
    minimum side keeps its sentinel [minFoundPos = INT64_MAX] with
    [minimumDebounceCounter = 0]; dually, a stream whose directions are
    never positive contains no maximum candidate and leaves
    [maxFoundPos = INT64_MIN] with [maximumDebounceCounter = 0]. *)
Theorem one_sided_stream (d : OscillatorDetector) (xs : list Sample) :
  m_internals d = default_internals ->
  (Forall (fun x => 0 <= snd x) xs ->
   no_minimum_candidate d xs = true /\
   minFoundPos (m_internals (final d xs)) = INT64_MAX /\
   minimumDebounceCounter (m_internals (final d xs)) = 0)
  /\
  (Forall (fun x => snd x <= 0) xs ->
   no_maximum_candidate d xs = true /\
   maxFoundPos (m_internals (final d xs)) = INT64_MIN /\
   maximumDebounceCounter (m_internals (final d xs)) = 0).
Proof.
  intros Hd. split; intros Hall.
  - assert (N : no_minimum_candidate d xs = true).
    { apply no_minimum_candidate_never_falling; [rewrite Hd; cbn; lia|exact Hall]. }
    split; [exact N|].
    apply (untouched_minimum_stream xs d); [rewrite Hd; split; reflexivity|exact N].
  - assert (N : no_maximum_candidate d xs = true).
    { apply no_maximum_candidate_never_rising; [rewrite Hd; cbn; lia|exact Hall]. }
    split; [exact N|].
    apply (untouched_maximum_stream xs d); [rewrite Hd; split; reflexivity|exact N].
Qed.

Lemma one_sided_stream_witness :
  no_minimum_candidate construct (staircase 0 3) = true /\
  minFoundPos (m_internals (final construct (staircase 0 3))) = INT64_MAX /\
  minimumDebounceCounter (m_internals (final construct (staircase 0 3))) = 0.
Proof.
  apply (proj1 (one_sided_stream construct (staircase 0 3) eq_refl)).
  repeat constructor; cbn; lia.
Defined.

(** ** What the smoother threshold measures *)

Lemma staircase_top k : forall p d,
  0 <= lastDirection (m_internals d) ->
  maxFoundPos (m_internals d) <= p + 1 ->
  let d' := final d (staircase p (S k)) in
  maxFoundPos (m_internals d') = p + 1 + Z.of_nat k /\
  lastDirection (m_internals d') = 0 /\
  m_params d' = m_params d.
Proof.
  induction k as [|k IH]; intros p d Hld Hp; cbn zeta.
  - change (staircase p 1) with [(p + 1, 1); (p + 1, 0)].
    rewrite (plateau d (p + 1) Hld Hp). cbn. repeat split. lia.
  - change (staircase p (S (S k)))
      with ([(p + 1, 1); (p + 1, 0)] ++ staircase (p + 1) (S k)).
    rewrite final_app, (plateau d (p + 1) Hld Hp). cbn zeta.
    match goal with |- context [final ?D (staircase _ (S k))] =>
      destruct (IH (p + 1) D) as (A & B & C) end.
    + cbn. lia.
    + cbn. lia.
    + cbn zeta in *. rewrite A, B, C. repeat split. lia.
Qed.

(** X20. [smootherThreshold] bounds the number of not-lower maximum
    candidates in a row that a lower one forgives.  On a detector in its
    default internal state, after [n] rising plateaus ([0 < n < 256]) and
    one more rising sample, a turn at a position below the last plateau
    resets the detector exactly when [n] is greater than
    [smootherThreshold]. *)
Theorem lower_turn_after_staircase
        (d : OscillatorDetector) (p x y direction : Z) (n : nat) :
  m_internals d = default_internals ->
  INT64_MIN <= p + 1 ->
  (0 < n < 256)%nat ->
  direction <= 0 ->
  y < p + Z.of_nat n ->
  reset_flag
    (detect_full (final d (staircase p n ++ [(x, 1)])) y direction)
  = (smootherThreshold (m_params d) <? Z.of_nat n).
Proof.
  intros Hd Hp Hn Hdir Hy.
  destruct n as [|k]; [lia|].
  rewrite final_app.
  assert (Hld : 0 <= lastDirection (m_internals d)) by (rewrite Hd; cbn; lia).
  assert (Hmx : maxFoundPos (m_internals d) <= p + 1) by (rewrite Hd; exact Hp).
  destruct (staircase_top k p d Hld Hmx) as (Top & Ld & Par).
  assert (Hc0 : maximumDebounceCounter (m_internals d) = to_uint8 0)
    by (rewrite Hd; reflexivity).
  assert (He0 : extremaCounter (m_internals d) = to_uint8 ((0 + 255) / 256))
    by (rewrite Hd; reflexivity).
  destruct (staircase_counters (S k) p d 0 (Z.le_refl 0) Hld Hmx Hc0 He0)
    as (Cnt & _).
  cbn zeta in *.
  set (d1 := final d (staircase p (S k))) in *. clearbody d1.
  cbn [final]. unfold detect. cbn [fst].
  rewrite (detect_full_no_candidate d1 x 1).
  2:{ unfold maximumFound. apply andb_false_r. }
  2:{ unfold minimumFound. rewrite Ld. reflexivity. }
  cbn [after].
  match goal with |- reset_flag (detect_full ?D y direction) = _ =>
    pose proof (detect_full_maximum D y direction) as E end.
  cbn [m_internals m_params] in E.
  rewrite maximum_branch_below in E.
  2:{ cbn. rewrite Top. lia. }
  rewrite E.
  2:{ unfold maximumFound. cbn. apply Z.leb_le. exact Hdir. }
  cbn [reset_flag]. rewrite orb_false_r. cbn. rewrite Par, Cnt.
  rewrite to_uint8_id; [reflexivity|]. unfold is_uint8. lia.
Qed.

(** Default threshold 5: five plateaus are forgiven, six are not. *)
Lemma lower_turn_after_staircase_witness :
  reset_flag
    (detect_full (final construct (staircase 0 5 ++ [(6, 1)])) 4 (-1)) = false
  /\ reset_flag
       (detect_full (final construct (staircase 0 6 ++ [(7, 1)])) 4 (-1)) = true.
Proof.
  split.
  - rewrite (lower_turn_after_staircase construct 0 6 4 (-1) 5);
      (reflexivity || lia || (vm_compute; discriminate)).
  - rewrite (lower_turn_after_staircase construct 0 7 4 (-1) 6);
      (reflexivity || lia || (vm_compute; discriminate)).
Defined.
